(** * mcp_builder: documentation crawler and blueprint orchestration

    A shallow embedding of

    - [mcp_builder/orchestration/models.py]  (EndpointSpec, Blueprint),
    - [mcp_builder/orchestration/llm.py]     (slugify, extract_endpoints,
      blueprint_from_dict, the LLM clients and LLMOrchestrator),
    - [mcp_builder/ingestion/models.py]      (Document, Corpus),
    - [mcp_builder/ingestion/downloader.py]  (CrawlConfig, DocumentationCrawler),

    followed by the properties stated about them.

    Conventions.  A Python [str] is a Rocq [string] (inside the matcher the
    list of its characters, [str]) whose characters are the code points
    U+0000..U+00FF; the character tables below ([\s], [\w], [str.lower],
    [str.upper]) are the Unicode ones restricted to that range.  A Python
    [int] is a [Z].  Code that can raise returns a [result]; the exceptions
    are the subclasses of [Exception], those that [except Exception]
    catches.  Library calls that the repository does not define (the JSON
    decoder, [urlparse], [re.fullmatch] on the configured patterns, the HTML
    parser, the HTTP session, the remote text-generation service) are
    Section variables. *)

From Stdlib Require Import ZArith NArith Ascii String List Bool Lia DecimalString.
From stdpp Require Import base gmap strings list.

Import ListNotations.
Local Open Scope list_scope.

(** ** Exceptions and results *)

Inductive exn : Type :=
| ValueError (msg : string)
| JSONDecodeError (msg : string)
| AttributeError (msg : string)
| TypeError (msg : string)
| RuntimeError (msg : string)
| RequestException (msg : string)
| RegexError (msg : string)
| OtherException (cls msg : string).

Inductive result (A : Type) : Type :=
| Ok (a : A)
| Raise (e : exn).
Arguments Ok {A} a.
Arguments Raise {A} e.

Definition rbind {A B} (r : result A) (f : A -> result B) : result B :=
  match r with
  | Ok a => f a
  | Raise e => Raise e
  end.

Notation "x <- r ;; k" := (rbind r (fun x => k))
  (at level 100, r at next level, right associativity).

(** ** Characters and strings *)

Definition ord (c : ascii) : N := N_of_ascii c.
Definition chr (n : N) : ascii := ascii_of_N n.

Definition between (lo hi : N) (c : ascii) : bool :=
  ((lo <=? ord c) && (ord c <=? hi))%N.

(** [str.isspace] / the [\s] category on U+0000..U+00FF. *)
Definition is_space (c : ascii) : bool :=
  between 9 13 c || between 28 32 c || (ord c =? 133)%N || (ord c =? 160)%N.

(** The [\w] category on U+0000..U+00FF: alphanumeric ([isalpha],
    [isdecimal], [isdigit] or [isnumeric]) or the underscore. *)
Definition is_word (c : ascii) : bool :=
  between 48 57 c || between 65 90 c || (ord c =? 95)%N || between 97 122 c
  || (ord c =? 170)%N || between 178 179 c || (ord c =? 181)%N
  || between 185 186 c || between 188 190 c
  || between 192 214 c || between 216 246 c || between 248 255 c.

(** Upper-case letters of U+0000..U+00FF sit 32 below their lower case. *)
Definition is_upper (c : ascii) : bool :=
  between 65 90 c || between 192 214 c || between 216 222 c.

Definition char_lower (c : ascii) : ascii :=
  if is_upper c then chr (ord c + 32) else c.

(** [str.upper] on one character: letters move 32 down and U+00DF becomes
    "SS".  U+00B5 and U+00FF, whose upper case lies above U+00FF, are left
    as they are; the only caller applies [upper] to text matched by the verb
    literals of [endpoint_pattern]. *)
Definition char_upper (c : ascii) : list ascii :=
  if between 97 122 c || between 224 246 c || between 248 254 c
  then [chr (ord c - 32)]
  else if (ord c =? 223)%N then ["S"; "S"]%char
  else [c].

Definition str := list ascii.

Definition lower (s : str) : str := map char_lower s.
Definition upper (s : str) : str := flat_map char_upper s.

Fixpoint lstrip (chars : ascii -> bool) (s : str) : str :=
  match s with
  | c :: s' => if chars c then lstrip chars s' else s
  | [] => []
  end.

Definition rstrip (chars : ascii -> bool) (s : str) : str :=
  rev (lstrip chars (rev s)).

(** [s.strip(chars)] *)
Definition strip (chars : ascii -> bool) (s : str) : str :=
  rstrip chars (lstrip chars s).

(** [sep.join(parts)] *)
Fixpoint join (sep : string) (parts : list string) : string :=
  match parts with
  | [] => ""
  | [p] => p
  | p :: rest => p +:+ sep +:+ join sep rest
  end.

Notation "'s2l' s" := (list_ascii_of_string s) (at level 9, only parsing).
Notation "'l2s' s" := (string_of_list_ascii s) (at level 9, only parsing).

(** ** The fragment of [re] the module uses

    Patterns are kept as syntax trees; [rmatch] is the backtracking matcher
    (alternatives in order, greedy repetition), [finditer] and [sub] scan
    left to right for non-overlapping matches. *)
Module Re.

Inductive set_item : Type :=
| Chr (c : ascii)              (* a literal member *)
| Range (lo hi : ascii)        (* lo-hi *)
| Category_word                (* \w *)
| Category_space.              (* \s *)

Inductive regex : Type :=
| Eps
| Lit (c : ascii)
| In_ (negate : bool) (items : list set_item)    (* [...] and [^...] *)
| Cat (r1 r2 : regex)
| Alt (r1 r2 : regex)
| Star (r : regex)
| Group (name : string) (r : regex).             (* (?P<name>...) *)

Definition Plus (r : regex) : regex := Cat r (Star r).

Fixpoint word (w : str) : regex :=
  match w with
  | [] => Eps
  | [c] => Lit c
  | c :: w' => Cat (Lit c) (word w')
  end.

Fixpoint alts (rs : list regex) : regex :=
  match rs with
  | [] => In_ false []
  | [r] => r
  | r :: rs' => Alt r (alts rs')
  end.

Definition item_has (c : ascii) (i : set_item) : bool :=
  match i with
  | Chr x => (ord x =? ord c)%N
  | Range lo hi => between (ord lo) (ord hi) c
  | Category_word => is_word c
  | Category_space => is_space c
  end.

Definition set_has (negate : bool) (items : list set_item) (c : ascii) : bool :=
  xorb negate (existsb (item_has c) items).

(** With [re.IGNORECASE] the subject character is lower-cased before it is
    compared with the (lower-cased) literal or looked up in the set. *)
Definition fold_case (ic : bool) (c : ascii) : ascii :=
  if ic then char_lower c else c.

Definition groups := list (string * str).

Definition set_group (name : string) (text : str) (g : groups) : groups :=
  (name, text) :: g.

(** Greedy repetition of [body]: another round only if the last one consumed
    a character; [n] bounds the rounds by the length of the subject. *)
Fixpoint star_loop {R : Type}
    (body : str -> groups -> (str -> groups -> option R) -> option R)
    (k : str -> groups -> option R) (n : nat) (s : str) (g : groups)
    {struct n} : option R :=
  match n with
  | O => k s g
  | S n' =>
      match body s g
              (fun s' g' =>
                 if (length s' <? length s)%nat then star_loop body k n' s' g'
                 else None) with
      | Some x => Some x
      | None => k s g
      end
  end.

Fixpoint rmatch {R : Type} (ic : bool) (r : regex) (s : str) (g : groups)
    (k : str -> groups -> option R) {struct r} : option R :=
  match r with
  | Eps => k s g
  | Lit c =>
      match s with
      | x :: s' =>
          if (ord (fold_case ic x) =? ord (fold_case ic c))%N then k s' g else None
      | [] => None
      end
  | In_ negate items =>
      match s with
      | x :: s' => if set_has negate items (fold_case ic x) then k s' g else None
      | [] => None
      end
  | Cat r1 r2 => rmatch ic r1 s g (fun s' g' => rmatch ic r2 s' g' k)
  | Alt r1 r2 =>
      match rmatch ic r1 s g k with
      | Some x => Some x
      | None => rmatch ic r2 s g k
      end
  | Star r1 => star_loop (rmatch ic r1) k (length s) s g
  | Group name r1 =>
      rmatch ic r1 s g
        (fun s' g' => k s' (set_group name (firstn (length s - length s') s) g'))
  end.

(** A match object: the matched text and the named groups. *)
Record re_match : Type := { m_text : str; m_groups : groups }.

Fixpoint lookup_group (name : string) (g : groups) : option str :=
  match g with
  | [] => None
  | (n, t) :: g' => if String.eqb n name then Some t else lookup_group name g'
  end.

(** [m.group(name)]; the empty text stands for a group that took no part. *)
Definition group (name : string) (m : re_match) : str :=
  match lookup_group name (m_groups m) with
  | Some t => t
  | None => []
  end.

(** The continuation that accepts whatever is left. *)
Definition accept (s : str) (g : groups) : option (str * groups) := Some (s, g).

(** [pattern.match] at the head of [s]: the remainder after the match and
    the groups. *)
Definition match_at (ic : bool) (r : regex) (s : str) : option (str * groups) :=
  rmatch ic r s [] accept.

(** The same, for a match that consumes at least one character. *)
Definition match_nonempty_at (ic : bool) (r : regex) (s : str)
  : option (str * groups) :=
  rmatch ic r s []
    (fun s' g => if (length s' <? length s)%nat then Some (s', g) else None).

(** [scan s skip]: the matches in [s], where the first [skip] characters
    still belong to the previous match.  After a match of no characters the
    same position is tried once more for a match that advances, as [re]
    does since Python 3.7. *)
Fixpoint scan (ic : bool) (r : regex) (s : str) (skip : nat) {struct s}
  : list re_match :=
  match skip with
  | S k =>
      match s with
      | [] => []
      | _ :: t => scan ic r t k
      end
  | O =>
      let next (n : nat) :=
        match s with
        | [] => []
        | _ :: t => scan ic r t n
        end in
      match match_at ic r s with
      | None => next O
      | Some (s', g) =>
          match (length s - length s')%nat with
          | S k => {| m_text := firstn (S k) s; m_groups := g |} :: next k
          | O =>
              {| m_text := []; m_groups := g |}
                :: match match_nonempty_at ic r s with
                   | Some (s'', g') =>
                       let n := (length s - length s'')%nat in
                       {| m_text := firstn n s; m_groups := g' |} :: next (pred n)
                   | None => next O
                   end
          end
      end
  end.

(** [pattern.finditer(text)] *)
Definition finditer (ic : bool) (r : regex) (text : str) : list re_match :=
  scan ic r text O.

Fixpoint sub_scan (ic : bool) (r : regex) (repl : str) (s : str) (skip : nat)
    {struct s} : str :=
  match skip with
  | S k =>
      match s with
      | [] => []
      | _ :: t => sub_scan ic r repl t k
      end
  | O =>
      let copy :=
        match s with
        | [] => []
        | x :: t => x :: sub_scan ic r repl t O
        end in
      let drop (n : nat) :=
        match s with
        | [] => []
        | _ :: t => sub_scan ic r repl t n
        end in
      match match_at ic r s with
      | None => copy
      | Some (s', _) =>
          match (length s - length s')%nat with
          | S k => repl ++ drop k
          | O =>
              repl ++
              match match_nonempty_at ic r s with
              | Some (s'', _) => repl ++ drop (pred (length s - length s''))
              | None => copy
              end
          end
      end
  end.

(** [re.sub(pattern, repl, text)] for a replacement without escapes. *)
Definition sub (r : regex) (repl : str) (text : str) : str :=
  sub_scan false r repl text O.

End Re.

(** ** Python values held by dynamically typed attributes

    The dataclass annotations of [models.py] are not enforced; a field holds
    whatever object the constructor was given.  The objects that reach the
    fields are strings and decoded JSON values. *)
#[warnings="-register-all"]
Inductive json : Type :=
| JNull
| JBool (b : bool)
| JInt (z : Z)
| JFloat (repr : string)            (* a float, by its [repr] *)
| JStr (s : string)
| JList (items : list json)
| JDict (entries : list (string * json)).

Coercion JStr : string >-> json.

(** Truth value of an object ([bool(v)]). *)
Definition truthy (v : json) : bool :=
  match v with
  | JNull => false
  | JBool b => b
  | JInt z => negb (z =? 0)%Z
  | JFloat r => negb (String.eqb r "0.0" || String.eqb r "-0.0")
  | JStr s => negb (String.eqb s "")
  | JList l => match l with [] => false | _ => true end
  | JDict d => match d with [] => false | _ => true end
  end.

(** [a or b] *)
Definition py_or (a b : json) : json := if truthy a then a else b.

Fixpoint assoc (key : string) (entries : list (string * json)) : option json :=
  match entries with
  | [] => None
  | (k, v) :: rest => if String.eqb k key then Some v else assoc key rest
  end.

(** ** orchestration/models.py *)

Record EndpointSpec : Type := mkEndpointSpec {
  name : json;
  method : json;
  path : json;
  description : json
}.

Record Blueprint : Type := mkBlueprint {
  bp_name : json;
  summary : json;
  endpoints : list EndpointSpec;
  prerequisites : list string
}.

Definition DEFAULT_BLUEPRINT_NAME : string := "GeneratedMCPServer".

(** ** orchestration/llm.py: the heuristic extractor *)

Import Re.

(** [[^a-z0-9]+] *)
Definition non_alnum_run : regex :=
  Plus (In_ true [Range "a" "z"; Range "0" "9"]).

(** [_+] *)
Definition underscore_run : regex := Plus (Lit "_").

Definition is_underscore (c : ascii) : bool := (ord c =? ord "_")%N.

Definition slugify (value : string) : string :=
  let value := lower (s2l value) in
  let value := Re.sub non_alnum_run (s2l "_") value in
  let value := strip is_underscore (Re.sub underscore_run (s2l "_") value) in
  match value with
  | [] => "endpoint"
  | _ => l2s value
  end.

(** The pattern of [extract_endpoints], compiled with [re.IGNORECASE]: the
    group [method] is one of the seven verbs, then [\s+], then the group
    [path]: a slash and any number of characters of the set
    [\w - / { } . :]. *)
Definition endpoint_pattern : regex :=
  Cat (Group "method"
         (alts (map (fun w : string => word (s2l w))
                    ["GET"; "POST"; "PUT"; "PATCH"; "DELETE"; "OPTIONS"; "HEAD"])))
      (Cat (Plus (In_ false [Category_space]))
           (Group "path"
              (Cat (Lit "/")
                   (Star (In_ false [Category_word; Chr "-"; Chr "/"; Chr "{";
                                     Chr "}"; Chr "."; Chr ":"]))))).

Definition endpoint_of_match (m : re_match) : EndpointSpec :=
  let method := l2s (upper (group "method" m)) in
  let path := l2s (group "path" m) in
  let name := slugify (method +:+ " " +:+ path) in
  let description := "Auto-detected endpoint for " +:+ method +:+ " " +:+ path in
  mkEndpointSpec name method path description.

Definition extract_endpoints (text : string) : list EndpointSpec :=
  map endpoint_of_match (finditer true endpoint_pattern (s2l text)).

(** ** orchestration/llm.py: decoding a generated response *)

Definition nl : string := String "010" "".

Definition type_name (v : json) : string :=
  match v with
  | JNull => "NoneType"
  | JBool _ => "bool"
  | JInt _ => "int"
  | JFloat _ => "float"
  | JStr _ => "str"
  | JList _ => "list"
  | JDict _ => "dict"
  end.

(** [v.get(key, default)]: only a dict has the method. *)
Definition py_get (v : json) (key : string) (default : json) : result json :=
  match v with
  | JDict entries =>
      Ok (match assoc key entries with Some x => x | None => default end)
  | _ => Raise (AttributeError
                  ("'" +:+ type_name v +:+ "' object has no attribute 'get'"))
  end.

(** [iter(v)]: a list yields its items, a dict its keys, a string its
    characters; the other values are not iterable. *)
Definition py_iter (v : json) : result (list json) :=
  match v with
  | JList items => Ok items
  | JDict entries => Ok (map (fun kv => JStr (fst kv)) entries)
  | JStr s => Ok (map (fun c => JStr (String c "")) (s2l s))
  | _ => Raise (TypeError ("'" +:+ type_name v +:+ "' object is not iterable"))
  end.

Fixpoint mapM {A B} (f : A -> result B) (l : list A) : result (list B) :=
  match l with
  | [] => Ok []
  | a :: l' => b <- f a ;; bs <- mapM f l' ;; Ok (b :: bs)
  end.

Section Decoding.

(** [repr] of a value that is not a string (builtin). *)
Variable py_repr : json -> string.

(** [json.loads]: the decoded value, or the exception it raises (a
    [JSONDecodeError] carries [str(exc)]).  A decoded object is a [JDict]
    with distinct keys in insertion order. *)
Variable json_loads : string -> result json.

(** [str(v)], also what an f-string field expands to. *)
Definition py_str (v : json) : string :=
  match v with
  | JStr s => s
  | _ => py_repr v
  end.

Definition endpoint_from_item (item : json) : result EndpointSpec :=
  m <- py_get item "method" "get" ;;
  p <- py_get item "path" "/" ;;
  name <- py_get item "name" (slugify (py_str m +:+ " " +:+ py_str p)) ;;
  method <- py_get item "method" "GET" ;;
  path <- py_get item "path" "/" ;;
  description <- py_get item "description" "" ;;
  Ok (mkEndpointSpec name method path description).

Definition blueprint_from_dict (data : json) : result Blueprint :=
  n <- py_get data "name" JNull ;;
  let name := py_or n DEFAULT_BLUEPRINT_NAME in
  s <- py_get data "summary" JNull ;;
  let summary := py_or s "Generated MCP server" in
  endpoint_dicts <- py_get data "endpoints" (JList []) ;;
  items <- py_iter endpoint_dicts ;;
  endpoints <- mapM endpoint_from_item items ;;
  pre <- py_get data "prerequisites" (JList []) ;;
  entries <- py_iter pre ;;
  Ok (mkBlueprint name summary endpoints (map py_str entries)).

(** [OpenAILLMClient._parse_response] *)
Definition _parse_response (text : string) : result Blueprint :=
  match json_loads text with
  | Raise (JSONDecodeError exc) =>
      Raise (ValueError ("Model response is not valid JSON: " +:+ exc))
  | Raise e => Raise e
  | Ok data => blueprint_from_dict data
  end.

(** ** orchestration/llm.py: clients and orchestrator *)

(** The remote call of [OpenAILLMClient.generate_blueprint]: the text of the
    first output of [client.responses.create] for a model and a prompt, or
    the exception raised on the way. *)
Variable responses_create : string -> string -> result string.

Inductive LLMClient : Type :=
| OpenAILLMClient (api_key model : string)
| HeuristicLLMClient (name : json)
| InjectedClient (generate : string -> result Blueprint).

(** [OpenAILLMClient.__init__] with the value of [os.environ.get]. *)
Definition OpenAILLMClient_init (environ_api_key : option string)
    (model : string) : result LLMClient :=
  match environ_api_key with
  | Some api_key =>
      if String.eqb api_key "" then Raise (RuntimeError "OPENAI_API_KEY is not set")
      else Ok (OpenAILLMClient api_key model)
  | None => Raise (RuntimeError "OPENAI_API_KEY is not set")
  end.

Definition generate_blueprint (self : LLMClient) (prompt : string)
  : result Blueprint :=
  match self with
  | OpenAILLMClient _ model =>
      content <- responses_create model prompt ;;
      _parse_response content
  | HeuristicLLMClient name =>
      let endpoints := extract_endpoints prompt in
      let summary := "Heuristically generated MCP server blueprint" in
      Ok (mkBlueprint name summary endpoints [])
  | InjectedClient generate => generate prompt
  end.

Record LLMOrchestrator : Type := { llm_client : LLMClient }.

(** [LLMOrchestrator.__init__]: [llm_client or HeuristicLLMClient()] *)
Definition LLMOrchestrator_init (llm_client : option LLMClient) : LLMOrchestrator :=
  {| llm_client := match llm_client with
                   | Some c => c
                   | None => HeuristicLLMClient DEFAULT_BLUEPRINT_NAME
                   end |}.

Definition _build_prompt (documents : list string) (title : option string) : string :=
  let joined := join (nl +:+ nl) documents in
  let prompt :=
    "You are an expert software engineer building Model Context Protocol (MCP) servers. "
    +:+ "Given the following API documentation, extract the key REST endpoints and return a JSON "
    +:+ "object with the fields: name (string), summary (string), endpoints (list of {name, method, path, description}), "
    +:+ "and prerequisites (list of strings describing required auth or setup)." in
  let prompt :=
    match title with
    | Some t => if String.eqb t "" then prompt
                else prompt +:+ nl +:+ "Documentation title: " +:+ t
    | None => prompt
    end in
  prompt +:+ nl +:+ nl +:+ "Documentation:" +:+ nl +:+ joined.

Definition health_check : EndpointSpec :=
  mkEndpointSpec "health_check" "GET" "/"
    "Fallback endpoint returning API availability information.".

Definition build_blueprint (self : LLMOrchestrator) (documents : list string)
    (title : option string) : result Blueprint :=
  let prompt := _build_prompt documents title in
  blueprint <-
    match generate_blueprint (llm_client self) prompt with
    | Ok blueprint => Ok blueprint
    | Raise _ =>
        generate_blueprint (HeuristicLLMClient DEFAULT_BLUEPRINT_NAME) prompt
    end ;;
  match endpoints blueprint with
  | [] => Ok (mkBlueprint (bp_name blueprint) (summary blueprint)
                (endpoints blueprint ++ [health_check]) (prerequisites blueprint))
  | _ => Ok blueprint
  end.

End Decoding.

(** ** ingestion/models.py *)

Record Document : Type := mkDocument {
  url : string;
  content : string;
  content_type : string;
  metadata : gmap string string;
  title : option string
}.

Record Corpus : Type := mkCorpus { documents : list Document }.

(** [Corpus.concatenate] *)
Definition concatenate (self : Corpus) (separator : string) : string :=
  join separator (map content (documents self)).

(** ** ingestion/downloader.py *)

Record CrawlConfig : Type := mkCrawlConfig {
  max_pages : Z;
  timeout : Z;
  user_agent : string;
  allow_patterns : list string;
  deny_patterns : list string
}.

Definition default_config : CrawlConfig :=
  mkCrawlConfig 20 10 "mcp-builder/0.1" [".*"] [].

Record DocumentationCrawler : Type := mkCrawler {
  start_url : string;
  config : CrawlConfig;
  allowed_netloc : string
}.

(** What the crawl reads of a response that passed [raise_for_status]. *)
Record response : Type := mkResponse {
  content_type_header : option string;     (* headers.get("Content-Type") *)
  text : string
}.

(** [s.split(sep)[0]] *)
Fixpoint split_head (sep : ascii) (s : string) : string :=
  match s with
  | EmptyString => EmptyString
  | String c s' => if (ord c =? ord sep)%N then EmptyString
                   else String c (split_head sep s')
  end.

(** The state of the loop of [crawl]; [requested] lists, oldest first, the
    URLs handed to [session.get]. *)
Record crawl_state : Type := mkState {
  visited : gset string;
  docs : list Document;
  q : list string;
  requested : list string
}.

Inductive loop_step : Type :=
| Stop                                     (* the loop condition is false *)
| Continue (st : crawl_state)              (* next iteration *)
| Abort (e : exn) (st : crawl_state).      (* an exception leaves [crawl] *)

Section Crawler.

(** [urlparse(url).netloc], or the [ValueError] of [urlparse]. *)
Variable urlparse_netloc : string -> result string.

(** [re.fullmatch(pattern, url)] as a truth value, or [re.error]. *)
Variable re_fullmatch : string -> string -> result bool.

(** [session.get(url, timeout=...)] followed by [raise_for_status()]; the
    first argument lists the requests made before this one. *)
Variable session_get : list string -> string -> result response.

(** The HTML parser: the string of the title element if there is one; the
    text of the tree without script, style and noscript elements, joined by
    spaces and stripped; the [href] of each anchor in document order. *)
Variable soup_title_string : string -> option string.
Variable soup_text : string -> string.
Variable soup_hrefs : string -> list string.

(** [html.unescape] and [urllib.parse.urljoin] *)
Variable unescape : string -> string.
Variable urljoin : string -> string -> result string.

(** [DocumentationCrawler.__init__] *)
Definition DocumentationCrawler_init (start_url : string)
    (config : option CrawlConfig) : result DocumentationCrawler :=
  let config := match config with Some c => c | None => default_config end in
  allowed_netloc <- urlparse_netloc start_url ;;
  Ok (mkCrawler start_url config allowed_netloc).

(** [any(re.fullmatch(pattern, url) for pattern in patterns)] *)
Fixpoint any_fullmatch (patterns : list string) (url : string) : result bool :=
  match patterns with
  | [] => Ok false
  | pattern :: rest =>
      m <- re_fullmatch pattern url ;;
      if m then Ok true else any_fullmatch rest url
  end.

Definition _url_allowed (self : DocumentationCrawler) (url : string)
  : result bool :=
  netloc <- urlparse_netloc url ;;
  if negb (String.eqb netloc (allowed_netloc self)) then Ok false else
  allowed <-
    match allow_patterns (config self) with
    | [] => Ok true
    | patterns => any_fullmatch patterns url
    end ;;
  if negb allowed then Ok false else
  denied <- any_fullmatch (deny_patterns (config self)) url ;;
  if denied then Ok false else Ok true.

(** The loop over the anchors in [_parse_html]. *)
Fixpoint collect_links (self : DocumentationCrawler) (url : string)
    (hrefs : list string) (links : gset string) : result (gset string) :=
  match hrefs with
  | [] => Ok links
  | href :: rest =>
      absolute <- urljoin url href ;;
      keep <- (if String.prefix "http" absolute then _url_allowed self absolute
               else Ok false) ;;
      collect_links self url rest (if keep then {[absolute]} ∪ links else links)
  end.

Definition _parse_html (self : DocumentationCrawler) (url html : string)
  : result (Document * gset string) :=
  let title :=
    match soup_title_string html with
    | Some t => if String.eqb t "" then None else Some (l2s (strip is_space (s2l t)))
    | None => None
    end in
  let text := unescape (soup_text html) in
  links <- collect_links self url (soup_hrefs html) ∅ ;;
  let metadata : gmap string string := {[ "source" := url ]} in
  Ok (mkDocument url text "text/html" metadata title, links).

Definition initial (self : DocumentationCrawler) : crawl_state :=
  mkState ∅ [] [start_url self] [].

(** One evaluation of the loop condition of [crawl] and, when it holds, one
    run of the loop body.  The links of a page are enqueued in the order of
    [elements]; Python leaves the iteration order of a set open. *)
Definition crawl_step (self : DocumentationCrawler) (st : crawl_state) : loop_step :=
  match q st with
  | [] => Stop
  | url :: q' =>
      if negb (Z.of_nat (size (visited st)) <? max_pages (config self))%Z then Stop
      else if decide (url ∈ visited st) then
        Continue (mkState (visited st) (docs st) q' (requested st))
      else
        let visited' := {[url]} ∪ visited st in
        let skip := mkState visited' (docs st) q' (requested st) in
        match _url_allowed self url with
        | Raise e => Abort e skip
        | Ok false => Continue skip
        | Ok true =>
            let requested' := requested st ++ [url] in
            let failed := mkState visited' (docs st) q' requested' in
            match session_get (requested st) url with
            | Raise (RequestException _) => Continue failed
            | Raise e => Abort e failed
            | Ok response =>
                let content_type :=
                  split_head ";"
                    (match content_type_header response with
                     | Some h => h
                     | None => "text/plain"
                     end) in
                if String.prefix "text/html" content_type then
                  match _parse_html self url (text response) with
                  | Raise e => Abort e failed
                  | Ok (document, discovered) =>
                      Continue
                        (mkState visited' (docs st ++ [document])
                           (q' ++ filter (fun link => link ∉ visited')
                                    (elements discovered))
                           requested')
                  end
                else if String.eqb content_type "application/json" then
                  Continue
                    (mkState visited'
                       (docs st ++ [mkDocument url (text response) content_type ∅ None])
                       q' requested')
                else Continue failed
            end
        end
  end.

(** [crawl]: the loop run for at most [fuel] iterations; [None] when the
    fuel does not suffice. *)
Fixpoint crawl_loop (self : DocumentationCrawler) (fuel : nat) (st : crawl_state)
  : option (result Corpus) :=
  match fuel with
  | O => None
  | S fuel' =>
      match crawl_step self st with
      | Stop => Some (Ok (mkCorpus (docs st)))
      | Continue st' => crawl_loop self fuel' st'
      | Abort e _ => Some (Raise e)
      end
  end.

Definition crawl (self : DocumentationCrawler) (fuel : nat) : option (result Corpus) :=
  crawl_loop self fuel (initial self).

(** The state after [n] iterations, or the last state of the run if it is
    shorter. *)
Fixpoint crawl_run (self : DocumentationCrawler) (n : nat) (st : crawl_state)
  : crawl_state :=
  match n with
  | O => st
  | S n' =>
      match crawl_step self st with
      | Stop => st
      | Continue st' => crawl_run self n' st'
      | Abort _ st' => st'
      end
  end.

End Crawler.

(** ** A decoder to run [_parse_response] on concrete texts

    [json_decode] follows the scanner of [json.loads] (objects, arrays,
    strings, integers, [true], [false], [null], white space) and reports
    its errors with the library's wording.  String escapes and numbers that
    decode to a float are outside the fragment and are answered with
    [OtherException]. *)
Module Json.

Definition nat_to_string (n : nat) : string :=
  NilEmpty.string_of_uint (Nat.to_uint n).

Definition is_ws (c : ascii) : bool :=
  (ord c =? 32)%N || (ord c =? 9)%N || (ord c =? 10)%N || (ord c =? 13)%N.

Definition is_digit (c : ascii) : bool := between 48 57 c.

(** [lineno] and [colno] of [JSONDecodeError] for the prefix before the
    error position. *)
Fixpoint line_col (prefix : str) (line col : nat) : nat * nat :=
  match prefix with
  | [] => (line, col)
  | c :: rest => if (ord c =? 10)%N then line_col rest (S line) 1
                 else line_col rest line (S col)
  end.

Inductive failure : Type :=
| Decode (msg : string) (remaining : nat)   (* [remaining] characters were left *)
| Unsupported.

Definition parsed (A : Type) : Type := (A * str + failure)%type.

Definition decode_error {A} (msg : string) (rest : str) : parsed A :=
  inr (Decode msg (length rest)).

Fixpoint digits (s : str) (acc : Z) : Z * str :=
  match s with
  | c :: s' => if is_digit c then digits s' (10 * acc + Z.of_N (ord c - 48))%Z
               else (acc, s)
  | [] => (acc, s)
  end.

(** The characters up to the closing quote. *)
Fixpoint scanstring (s : str) (start : str) : parsed string :=
  match s with
  | [] => decode_error "Unterminated string starting at" start
  | c :: s' =>
      if (ord c =? 34)%N then inl (EmptyString, s')
      else if (ord c =? 92)%N then inr Unsupported
      else if (ord c <? 32)%N then decode_error "Invalid control character at" s
      else match scanstring s' start with
           | inl (t, rest) => inl (String c t, rest)
           | inr f => inr f
           end
  end.

(** [dict[key] = value] *)
Fixpoint dict_set (key : string) (value : json) (entries : list (string * json))
  : list (string * json) :=
  match entries with
  | [] => [(key, value)]
  | (k, v) :: rest => if String.eqb k key then (k, value) :: rest
                      else (k, v) :: dict_set key value rest
  end.

Definition starts_with (w : string) (s : str) : option str :=
  let w := s2l w in
  if forallb (fun xy => (ord (fst xy) =? ord (snd xy))%N) (combine w s)
     && (length w <=? length s)%nat
  then Some (skipn (length w) s) else None.

Definition number (s : str) : parsed json :=
  let '(neg, body) :=
    match s with
    | c :: s' => if (ord c =? 45)%N then (true, s') else (false, s)
    | [] => (false, s)
    end in
  match body with
  | d :: body' =>
      if is_digit d then
        let '(z, rest) :=
          if (ord d =? 48)%N then (0%Z, body') else digits body 0 in
        match rest with
        | c :: _ =>
            if (ord c =? 46)%N || (ord c =? 101)%N || (ord c =? 69)%N
            then inr Unsupported
            else inl (JInt (if neg then - z else z), rest)
        | [] => inl (JInt (if neg then - z else z), rest)
        end
      else if neg && (ord d =? 73)%N then inr Unsupported
      else decode_error "Expecting value" s
  | [] => decode_error "Expecting value" s
  end.

Fixpoint scan_once (fuel : nat) (s : str) : parsed json :=
  match fuel with
  | O => inr Unsupported
  | S fuel' =>
      match s with
      | [] => decode_error "Expecting value" s
      | c :: s' =>
          if (ord c =? 34)%N then
            match scanstring s' s with
            | inl (t, rest) => inl (JStr t, rest)
            | inr f => inr f
            end
          else if (ord c =? 123)%N then
            let s1 := lstrip is_ws s' in
            match s1 with
            | c1 :: s2 =>
                if (ord c1 =? 125)%N then inl (JDict [], s2)
                else if (ord c1 =? 34)%N then members fuel' s1 []
                else decode_error
                       "Expecting property name enclosed in double quotes" s1
            | [] => decode_error
                      "Expecting property name enclosed in double quotes" s1
            end
          else if (ord c =? 91)%N then
            let s1 := lstrip is_ws s' in
            match s1 with
            | c1 :: s2 =>
                if (ord c1 =? 93)%N then inl (JList [], s2)
                else items fuel' s1 []
            | [] => items fuel' s1 []
            end
          else match starts_with "null" s, starts_with "true" s,
                     starts_with "false" s with
               | Some rest, _, _ => inl (JNull, rest)
               | _, Some rest, _ => inl (JBool true, rest)
               | _, _, Some rest => inl (JBool false, rest)
               | _, _, _ =>
                   if (ord c =? 78)%N || (ord c =? 73)%N then
                     match starts_with "NaN" s, starts_with "Infinity" s with
                     | None, None => decode_error "Expecting value" s
                     | _, _ => inr Unsupported
                     end
                   else number s
               end
      end
  end

(** The members of an object from a key on; [s] starts with a quote. *)
with members (fuel : nat) (s : str) (acc : list (string * json)) : parsed json :=
  match fuel with
  | O => inr Unsupported
  | S fuel' =>
      match s with
      | [] => decode_error "Expecting property name enclosed in double quotes" s
      | _ :: s' =>
          match scanstring s' s with
          | inr f => inr f
          | inl (key, rest) =>
              match lstrip is_ws rest with
              | c :: rest1 =>
                  if (ord c =? 58)%N then
                    match scan_once fuel' (lstrip is_ws rest1) with
                    | inr f => inr f
                    | inl (value, rest2) =>
                        let acc := dict_set key value acc in
                        match lstrip is_ws rest2 with
                        | c2 :: rest3 =>
                            if (ord c2 =? 125)%N then inl (JDict acc, rest3)
                            else if (ord c2 =? 44)%N then
                              match lstrip is_ws rest3 with
                              | c3 :: rest4 =>
                                  if (ord c3 =? 34)%N
                                  then members fuel' (c3 :: rest4) acc
                                  else decode_error
                                         "Expecting property name enclosed in double quotes"
                                         (c3 :: rest4)
                              | [] => decode_error
                                        "Expecting property name enclosed in double quotes"
                                        []
                              end
                            else decode_error "Expecting ',' delimiter" (c2 :: rest3)
                        | [] => decode_error "Expecting ',' delimiter" []
                        end
                    end
                  else decode_error "Expecting ':' delimiter" (c :: rest1)
              | [] => decode_error "Expecting ':' delimiter" []
              end
          end
      end
  end

(** The items of an array from a value on. *)
with items (fuel : nat) (s : str) (acc : list json) : parsed json :=
  match fuel with
  | O => inr Unsupported
  | S fuel' =>
      match scan_once fuel' s with
      | inr f => inr f
      | inl (value, rest) =>
          let acc := acc ++ [value] in
          match lstrip is_ws rest with
          | c :: rest1 =>
              if (ord c =? 93)%N then inl (JList acc, rest1)
              else if (ord c =? 44)%N then items fuel' (lstrip is_ws rest1) acc
              else decode_error "Expecting ',' delimiter" (c :: rest1)
          | [] => decode_error "Expecting ',' delimiter" []
          end
      end
  end.

Definition error_text (msg : string) (text : str) (remaining : nat) : string :=
  let pos := (length text - remaining)%nat in
  let '(line, col) := line_col (firstn pos text) 1 1 in
  msg +:+ ": line " +:+ nat_to_string line +:+ " column " +:+ nat_to_string col
      +:+ " (char " +:+ nat_to_string pos +:+ ")".

Definition json_decode (text : string) : result json :=
  let s := s2l text in
  let report f :=
    match f with
    | Decode msg remaining => Raise (JSONDecodeError (error_text msg s remaining))
    | Unsupported => Raise (OtherException "Unsupported" "outside the fragment")
    end in
  match scan_once (2 * length s + 2) (lstrip is_ws s) with
  | inr f => report f
  | inl (value, rest) =>
      match lstrip is_ws rest with
      | [] => Ok value
      | rest' => report (Decode "Extra data" (length rest'))
      end
  end.

End Json.

(** The double quote, and a text between double quotes. *)
Definition dq : string := String "034" "".
Definition quoted (s : string) : string := dq +:+ s +:+ dq.

(** ** The slug as the specification words it

    Lower-case the input; replace every maximal run of characters outside
    [a-z0-9] by one underscore; strip leading and trailing underscores; an
    empty result becomes ["endpoint"]. *)

Definition outside_az09 (c : ascii) : bool :=
  negb (between 97 122 c || between 48 57 c).

(** [in_run] tells whether the previous character already belonged to the
    run being replaced. *)
Fixpoint replace_runs (p : ascii -> bool) (repl : str) (in_run : bool) (s : str)
  : str :=
  match s with
  | [] => []
  | c :: s' =>
      if p c then (if in_run then [] else repl) ++ replace_runs p repl true s'
      else c :: replace_runs p repl false s'
  end.

Definition slugify_spec (value : string) : string :=
  let lowered := lower (s2l value) in
  let replaced := replace_runs outside_az09 (s2l "_") false lowered in
  let stripped := strip is_underscore replaced in
  match stripped with
  | [] => "endpoint"
  | _ => l2s stripped
  end.

(** Number of leading characters of [s] in the class [p]. *)
Definition run (p : ascii -> bool) (s : str) : nat :=
  (length s - length (lstrip p s))%nat.

(** The blueprint of the heuristic strategy for a prompt. *)
Definition heuristic_blueprint (prompt : string) : Blueprint :=
  mkBlueprint DEFAULT_BLUEPRINT_NAME "Heuristically generated MCP server blueprint"
    (extract_endpoints prompt) [].

(** Step 4 of [build_blueprint]: an empty endpoint list gets the health
    check. *)
Definition repaired (b : Blueprint) : Blueprint :=
  match endpoints b with
  | [] => mkBlueprint (bp_name b) (summary b) [health_check] (prerequisites b)
  | _ => b
  end.

(** ** Fixtures for concrete runs *)

(** A remote service that cannot be reached. *)
Definition offline_service (model prompt : string) : result string :=
  Raise (OtherException "APIConnectionError" "Connection error.").

(** [repr] on the values the concrete runs format: none but strings. *)
Definition repr_unused (v : json) : string := "".

(** The response body [{"endpoints":[{"method":"get","path":"/x"}]}]. *)
Definition one_endpoint_body : string :=
  "{" +:+ quoted "endpoints" +:+ ":[{" +:+ quoted "method" +:+ ":" +:+ quoted "get"
      +:+ "," +:+ quoted "path" +:+ ":" +:+ quoted "/x" +:+ "}]}".

Definition one_endpoint_value : json :=
  JDict [("endpoints", JList [JDict [("method", JStr "get"); ("path", JStr "/x")]])].

Definition one_endpoint_blueprint : Blueprint :=
  mkBlueprint DEFAULT_BLUEPRINT_NAME "Generated MCP server"
    [mkEndpointSpec (slugify "get /x") "get" "/x" ""] [].

(** An orchestrator whose primary strategy is the remote client. *)
Definition remote_orchestrator : LLMOrchestrator :=
  {| llm_client := OpenAILLMClient "sk-test" "gpt-4o-mini" |}.

(** ** Invariants of the crawl loop *)

(** The cap invariant of the loop. *)
Definition within_cap (self : DocumentationCrawler) (st : crawl_state) : Prop :=
  (Z.of_nat (size (visited st)) <= Z.max 0 (max_pages (config self)))%Z.

(** Every requested URL passed the scope check. *)
Definition requests_allowed (urlparse_netloc : string -> result string)
    (re_fullmatch : string -> string -> result bool)
    (self : DocumentationCrawler) (st : crawl_state) : Prop :=
  forall url : string,
    url ∈ requested st -> _url_allowed urlparse_netloc re_fullmatch self url = Ok true.

(** ** A small site for concrete crawls *)
Module Fixture.

(** The characters of [s] before the first one in [stop]. *)
Fixpoint before (stop : ascii -> bool) (s : string) : string :=
  match s with
  | EmptyString => EmptyString
  | String c s' => if stop c then EmptyString else String c (before stop s')
  end.

Definition is_one_of (chars : string) (c : ascii) : bool :=
  existsb (fun x => (ord x =? ord c)%N) (s2l chars).

(** [urlparse(url).netloc] for a URL of the form [scheme://netloc...] with
    a scheme of ASCII letters; the empty string for a URL without scheme. *)
Definition netloc (url : string) : result string :=
  let scheme := before (is_one_of ":") url in
  let rest := String.substring (String.length scheme) (String.length url) url in
  if negb (String.eqb scheme "")
     && forallb (fun c => between 65 90 c || between 97 122 c) (s2l scheme)
     && String.prefix "://" rest
  then Ok (before (is_one_of "/?#") (String.substring 3 (String.length rest) rest))
  else Ok "".

(** [re.fullmatch] for the pattern [.*] and for patterns without special
    characters; other patterns are not supported. *)
Definition fullmatch (pattern url : string) : result bool :=
  if String.eqb pattern ".*" then Ok (negb (existsb (is_one_of nl) (s2l url)))
  else if forallb (fun c => is_word c || is_one_of "/:-" c) (s2l pattern)
       then Ok (String.eqb pattern url)
       else Raise (RegexError "unsupported pattern").

(** The site: an HTML index, a JSON document, and nothing else. *)
Definition session (history : list string) (url : string) : result response :=
  if String.eqb url "http://docs/" then
    Ok (mkResponse (Some "text/html; charset=utf-8") "index")
  else if String.eqb url "http://docs/api" then
    Ok (mkResponse (Some "application/json") "{}")
  else Raise (RequestException "404 Client Error").

Definition title_string (html : string) : option string :=
  if String.eqb html "index" then Some " Docs " else None.

Definition hrefs (html : string) : list string :=
  if String.eqb html "index" then ["/api"; "http://other/x"; "/private"; "/gone"]
  else [].

(** [urljoin] of an absolute URL or of an absolute path on the site. *)
Definition join_url (base href : string) : result string :=
  if String.prefix "http" href then Ok href else Ok ("http://docs" +:+ href).

Definition site_config (cap : Z) : CrawlConfig :=
  mkCrawlConfig cap 10 "mcp-builder/0.1" [".*"] ["http://docs/private"].

Definition crawler (cap : Z) : DocumentationCrawler :=
  mkCrawler "http://docs/" (site_config cap) "docs".

Definition run (cap : Z) (n : nat) : crawl_state :=
  crawl_run netloc fullmatch session title_string (fun html => html) hrefs
    (fun s => s) join_url (crawler cap) n (initial (crawler cap)).

End Fixture.


(** * Further definitions *)

(** A character of a slug: [a-z0-9] or the underscore. *)
Definition slug_char (c : ascii) : bool :=
  negb (outside_az09 c) || is_underscore c.

(** No two neighbours of [l] are both in the class [p]. *)
Fixpoint no_adjacent (p : ascii -> bool) (l : str) : bool :=
  match l with
  | a :: t => match t with
              | b :: _ => negb (p a && p b) && no_adjacent p t
              | [] => true
              end
  | [] => true
  end.

(** The first character of [l], if any, is outside the class [p]. *)
Definition head_outside (p : ascii -> bool) (l : str) : bool :=
  match l with
  | c :: _ => negb (p c)
  | [] => true
  end.

(** ** The texts a pattern matches *)

Fixpoint no_groups (r : regex) : bool :=
  match r with
  | Eps | Lit _ | In_ _ _ => true
  | Cat r1 r2 | Alt r1 r2 => no_groups r1 && no_groups r2
  | Star r1 => no_groups r1
  | Group _ _ => false
  end.

(** [in_lang ic r t]: the text [t] is matched by [r] as a whole. *)
Fixpoint in_lang (ic : bool) (r : regex) (t : str) {struct r} : Prop :=
  match r with
  | Eps => t = []
  | Lit c => exists x, t = [x] /\ fold_case ic x = fold_case ic c
  | In_ negate items =>
      exists x, t = [x] /\ set_has negate items (fold_case ic x) = true
  | Cat r1 r2 => exists t1 t2, t = t1 ++ t2 /\ in_lang ic r1 t1 /\ in_lang ic r2 t2
  | Alt r1 r2 => in_lang ic r1 t \/ in_lang ic r2 t
  | Star r1 => exists ts, t = concat ts /\ Forall (in_lang ic r1) ts
  | Group _ r1 => in_lang ic r1 t
  end.

(** The verbs of [endpoint_pattern] and the characters of a path. *)
Definition verbs : list string :=
  ["GET"; "POST"; "PUT"; "PATCH"; "DELETE"; "OPTIONS"; "HEAD"].

Definition path_char (c : ascii) : bool :=
  set_has false [Category_word; Chr "-"; Chr "/"; Chr "{"; Chr "}"; Chr "."; Chr ":"]
    (char_lower c).

(** ** scaffold/manager.py: the rendering context *)

(** The dict of one endpoint in [_context_from_blueprint]. *)
Definition endpoint_context (ep : EndpointSpec) : json :=
  JDict [("name", name ep); ("method", method ep); ("path", path ep);
         ("description", description ep)].

(** [ScaffoldManager._context_from_blueprint] *)
Definition _context_from_blueprint (blueprint : Blueprint) : json :=
  JDict [("blueprint",
          JDict [("name", bp_name blueprint);
                 ("summary", summary blueprint);
                 ("endpoints", JList (map endpoint_context (endpoints blueprint)));
                 ("prerequisites", JList (map JStr (prerequisites blueprint)))])].

(** [v[key]] for a string key. *)
Definition py_getitem (v : json) (key : string) : result json :=
  match v with
  | JDict entries =>
      match assoc key entries with
      | Some x => Ok x
      | None => Raise (OtherException "KeyError" key)
      end
  | JList _ => Raise (TypeError "list indices must be integers or slices, not str")
  | JStr _ => Raise (TypeError "string indices must be integers, not 'str'")
  | _ => Raise (TypeError ("'" +:+ type_name v +:+ "' object is not subscriptable"))
  end.

(** The endpoint [blueprint_from_dict] builds from the entries of one
    object. *)
Definition endpoint_of_entries (py_repr : json -> string)
    (entries : list (string * json)) : EndpointSpec :=
  let get key default :=
    match assoc key entries with Some x => x | None => default end in
  mkEndpointSpec
    (get "name"
       (JStr (slugify (py_str py_repr (get "method" (JStr "get")) +:+ " "
                       +:+ py_str py_repr (get "path" (JStr "/"))))))
    (get "method" (JStr "GET")) (get "path" (JStr "/"))
    (get "description" (JStr "")).

Definition is_dict (v : json) : bool :=
  match v with JDict _ => true | _ => false end.

(** The two kinds of document [crawl] stores. *)
Definition stored_kind (d : Document) : Prop :=
  content_type d = "text/html" \/ content_type d = "application/json".

(** What the loop of [crawl] keeps true of its state. *)
Definition crawl_invariant (urlparse_netloc : string -> result string)
    (re_fullmatch : string -> string -> result bool)
    (self : DocumentationCrawler) (st : crawl_state) : Prop :=
  NoDup (requested st)
  /\ (forall u, u ∈ requested st -> u ∈ visited st)
  /\ (length (requested st) <= size (visited st))%nat
  /\ map url (docs st) `sublist_of` requested st
  /\ Forall stored_kind (docs st)
  /\ (forall u, u ∈ q st ->
        u = start_url self
        \/ (_url_allowed urlparse_netloc re_fullmatch self u = Ok true
            /\ String.prefix "http" u = true))
  /\ ((docs st = [] /\ (q st = [] \/ (q st = [start_url self] /\ visited st = ∅)))
      \/ exists d ds, docs st = d :: ds /\ url d = start_url self).

(** ** project/generator.py *)

(** [ProjectGenerator._document_texts] *)
Definition _document_texts (corpus : Corpus) : list string :=
  map (fun doc => "Source: " +:+ url doc +:+ nl +:+ nl +:+ content doc)
      (documents corpus).

Section Generator.

Variable py_repr : json -> string.
Variable json_loads : string -> result json.
Variable responses_create : string -> string -> result string.
Variable urlparse_netloc : string -> result string.
Variable re_fullmatch : string -> string -> result bool.
Variable session_get : list string -> string -> result response.
Variable soup_title_string : string -> option string.
Variable soup_text : string -> string.
Variable soup_hrefs : string -> list string.
Variable unescape : string -> string.
Variable urljoin : string -> string -> result string.

(** The scaffold manager: its state, the manager [ScaffoldManager()] builds,
    and [render_project], which writes the project and returns its path or
    raises. *)
Variable ScaffoldManager : Type.
Variable default_manager : ScaffoldManager.
Variable render_project : ScaffoldManager -> Blueprint -> string -> result string.

Record ProjectGenerator : Type := mkGenerator {
  orchestrator : LLMOrchestrator;
  scaffold_manager : ScaffoldManager
}.

(** [ProjectGenerator.__init__] *)
Definition ProjectGenerator_init (orchestrator : option LLMOrchestrator)
    (scaffold_manager : option ScaffoldManager) : ProjectGenerator :=
  mkGenerator
    (match orchestrator with Some o => o | None => LLMOrchestrator_init None end)
    (match scaffold_manager with Some m => m | None => default_manager end).

(** [ProjectGenerator.generate]; [fuel] bounds the iterations of the crawl. *)
Definition generate (self : ProjectGenerator) (url output_dir : string)
    (max_pages : Z) (fuel : nat) : option (result string) :=
  match DocumentationCrawler_init urlparse_netloc url
          (Some (mkCrawlConfig max_pages 10 "mcp-builder/0.1" [".*"] [])) with
  | Raise e => Some (Raise e)
  | Ok crawler =>
      match crawl urlparse_netloc re_fullmatch session_get soup_title_string
              soup_text soup_hrefs unescape urljoin crawler fuel with
      | None => None
      | Some (Raise e) => Some (Raise e)
      | Some (Ok corpus) =>
          let title :=
            match documents corpus with
            | doc :: _ => title doc
            | [] => None
            end in
          Some (blueprint <-
                  build_blueprint py_repr json_loads responses_create
                    (orchestrator self) (_document_texts corpus) title ;;
                render_project (scaffold_manager self) blueprint output_dir)
      end
  end.

End Generator.

(** ** More fixtures *)

(** A remote service that always answers with [one_endpoint_body]. *)
Definition canned_service (model prompt : string) : result string :=
  Ok one_endpoint_body.

(** A renderer that writes nothing and reports the output directory. *)
Definition render_nothing (manager : unit) (blueprint : Blueprint)
    (output_dir : string) : result string :=
  Ok output_dir.

(** The two documents of the site of [Fixture]. *)
Definition site_corpus : Corpus :=
  mkCorpus
    [ mkDocument "http://docs/" "index" "text/html"
        {[ "source" := "http://docs/" ]} (Some "Docs");
      mkDocument "http://docs/api" "{}" "application/json" ∅ None ].

(** * Properties *)

(** ** The matcher on repetitions of one character class *)

Section SingleCharacter.

Variable ic : bool.
Variable r : regex.
Variable p : ascii -> bool.

Hypothesis r_single :
  forall (R : Type) (s : str) (g : groups) (k : str -> groups -> option R),
    rmatch ic r s g k =
    match s with
    | x :: s' => if p x then k s' g else None
    | [] => None
    end.

Lemma star_loop_single (n : nat) :
  forall (s : str) (g : groups),
    (length s <= n)%nat ->
    star_loop (rmatch ic r) accept n s g = Some (lstrip p s, g).
Proof.
  induction n as [|n IH]; intros s g Hlen.
  - destruct s; [reflexivity | simpl in Hlen; lia].
  - simpl. rewrite r_single. destruct s as [|x s']; [reflexivity|].
    simpl. destruct (p x); [|reflexivity].
    replace (length s' <? S (length s'))%nat with true
      by (symmetry; apply Nat.ltb_lt; lia).
    rewrite IH by (simpl in Hlen; lia). reflexivity.
Qed.

Lemma match_at_plus_single (s : str) :
  match_at ic (Plus r) s =
  match s with
  | x :: s' => if p x then Some (lstrip p s', []) else None
  | [] => None
  end.
Proof.
  unfold match_at, Plus. cbn [rmatch]. rewrite r_single.
  destruct s as [|x s']; [reflexivity|].
  destruct (p x); [|reflexivity].
  apply (star_loop_single (length s')). lia.
Qed.

Lemma lstrip_length (s : str) : (length (lstrip p s) <= length s)%nat.
Proof.
  induction s as [|x s IH]; simpl; [lia|]. destruct (p x); simpl; lia.
Qed.

Lemma sub_scan_single (repl : str) (s : str) :
  sub_scan ic (Plus r) repl s O = replace_runs p repl false s
  /\ sub_scan ic (Plus r) repl s (run p s) = replace_runs p repl true s.
Proof.
  induction s as [|x s [IH0 IH1]].
  - unfold run. cbn [sub_scan length lstrip Nat.sub].
    rewrite match_at_plus_single. split; reflexivity.
  - assert (H0 : sub_scan ic (Plus r) repl (x :: s) O
                 = replace_runs p repl false (x :: s)).
    { cbn [sub_scan replace_runs]. rewrite match_at_plus_single.
      destruct (p x) eqn:Hp.
      - pose proof (lstrip_length s) as Hl.
        replace (length (x :: s) - length (lstrip p s))%nat with (S (run p s))
          by (unfold run; simpl; lia).
        f_equal. exact IH1.
      - f_equal. exact IH0. }
    split; [exact H0|].
    unfold run. cbn [lstrip replace_runs]. destruct (p x) eqn:Hp.
    + pose proof (lstrip_length s) as Hl.
      replace (length (x :: s) - length (lstrip p s))%nat with (S (run p s))
        by (unfold run; simpl; lia).
      cbn [sub_scan]. exact IH1.
    + replace (length (x :: s) - length (x :: s))%nat with O by lia.
      rewrite H0. cbn [replace_runs]. rewrite Hp. reflexivity.
Qed.

End SingleCharacter.

Lemma rmatch_In_single (negate : bool) (items : list set_item) :
  forall (R : Type) (s : str) (g : groups) (k : str -> groups -> option R),
    rmatch false (In_ negate items) s g k =
    match s with
    | x :: s' => if set_has negate items x then k s' g else None
    | [] => None
    end.
Proof. intros R s g k. destruct s; reflexivity. Qed.

Lemma rmatch_Lit_single (c : ascii) :
  forall (R : Type) (s : str) (g : groups) (k : str -> groups -> option R),
    rmatch false (Lit c) s g k =
    match s with
    | x :: s' => if (ord x =? ord c)%N then k s' g else None
    | [] => None
    end.
Proof. intros R s g k. destruct s; reflexivity. Qed.

Lemma replace_runs_ext (p p' : ascii -> bool) (repl : str) :
  (forall c, p c = p' c) ->
  forall (s : str) (b : bool), replace_runs p repl b s = replace_runs p' repl b s.
Proof.
  intros Hpp s. induction s as [|c s IH]; intros b; simpl; [reflexivity|].
  rewrite Hpp. destruct (p' c); rewrite IH; reflexivity.
Qed.

(** ** Groups of a successful match *)

(** A successful match ends in its continuation, and the groups it hands
    over extend the groups it started from. *)
Lemma star_loop_success {R : Type}
    (body : str -> groups -> (str -> groups -> option R) -> option R)
    (k : str -> groups -> option R) :
  (forall s g k' x,
      body s g k' = Some x ->
      exists s' g' d, k' s' g' = Some x /\ g' = d ++ g) ->
  forall n s g x,
    star_loop body k n s g = Some x ->
    exists s' g' d, k s' g' = Some x /\ g' = d ++ g.
Proof.
  intros Hbody n. induction n as [|n IH]; intros s g x H; simpl in H.
  - exists s, g, []. split; [exact H | reflexivity].
  - destruct (body s g _) as [y|] eqn:Hb.
    + injection H as ->. apply Hbody in Hb.
      destruct Hb as (s1 & g1 & d1 & Hk & ->).
      destruct (length s1 <? length s)%nat; [|discriminate].
      apply IH in Hk. destruct Hk as (s2 & g2 & d2 & Hk & ->).
      exists s2, (d2 ++ d1 ++ g), (d2 ++ d1). split; [exact Hk|].
      rewrite <- app_assoc. reflexivity.
    + exists s, g, []. split; [exact H | reflexivity].
Qed.

Lemma rmatch_success {R : Type} (ic : bool) (r : regex) :
  forall (s : str) (g : groups) (k : str -> groups -> option R) (x : R),
    rmatch ic r s g k = Some x ->
    exists s' g' d, k s' g' = Some x /\ g' = d ++ g.
Proof.
  induction r as [|c|negate items|r1 IH1 r2 IH2|r1 IH1 r2 IH2|r1 IH1|name r1 IH1];
    intros s g k x H; cbn [rmatch] in H.
  - exists s, g, []. split; [exact H | reflexivity].
  - destruct s as [|y s']; [discriminate|].
    destruct (ord (fold_case ic y) =? ord (fold_case ic c))%N; [|discriminate].
    exists s', g, []. split; [exact H | reflexivity].
  - destruct s as [|y s']; [discriminate|].
    destruct (set_has negate items (fold_case ic y)); [|discriminate].
    exists s', g, []. split; [exact H | reflexivity].
  - apply IH1 in H. destruct H as (s1 & g1 & d1 & H & ->).
    apply IH2 in H. destruct H as (s2 & g2 & d2 & H & ->).
    exists s2, (d2 ++ d1 ++ g), (d2 ++ d1). split; [exact H|].
    rewrite <- app_assoc. reflexivity.
  - destruct (rmatch ic r1 s g k) as [y|] eqn:H1.
    + injection H as ->. apply IH1 in H1. exact H1.
    + apply IH2 in H. exact H.
  - apply (star_loop_success (rmatch ic r1) k) in H; [exact H|].
    intros s0 g0 k' x0. apply IH1.
  - apply IH1 in H. destruct H as (s1 & g1 & d1 & H & ->).
    exists s1, (set_group name (firstn (length s - length s1) s) (d1 ++ g)),
      ((name, firstn (length s - length s1) s) :: d1).
    split; [exact H | reflexivity].
Qed.

Lemma lookup_group_app (name : string) (t : str) (a b : groups) :
  lookup_group name (a ++ (name, t) :: b) <> None.
Proof.
  induction a as [|[n u] a IH]; simpl.
  - rewrite String.eqb_refl. discriminate.
  - destruct (String.eqb n name); [discriminate | exact IH].
Qed.

Lemma two_groups_set (ic : bool) (n1 n2 : string) (a b c : regex)
    (s rest : str) (g : groups) :
  match_at ic (Cat (Group n1 a) (Cat b (Group n2 c))) s = Some (rest, g) ->
  lookup_group n1 g <> None /\ lookup_group n2 g <> None.
Proof.
  unfold match_at. intros H. cbn [rmatch] in H.
  apply rmatch_success in H. destruct H as (s1 & g1 & d1 & H & ->).
  apply rmatch_success in H. destruct H as (s2 & g2 & d2 & H & ->).
  apply rmatch_success in H. destruct H as (s3 & g3 & d3 & H & ->).
  unfold accept in H. injection H as <- <-.
  unfold set_group. rewrite app_nil_r. split.
  - rewrite app_assoc, app_comm_cons. apply lookup_group_app.
  - simpl. rewrite String.eqb_refl. discriminate.
Qed.

(** Both groups of [endpoint_pattern] take part in every match, so [group]
    never falls back to the empty text in [endpoint_of_match]. *)
Lemma endpoint_pattern_groups (s rest : str) (g : groups) :
  match_at true endpoint_pattern s = Some (rest, g) ->
  lookup_group "method" g <> None /\ lookup_group "path" g <> None.
Proof. apply two_groups_set. Qed.

(** ** slugify *)

Lemma sub_non_alnum_run (repl s : str) :
  Re.sub non_alnum_run repl s = replace_runs outside_az09 repl false s.
Proof.
  unfold Re.sub, non_alnum_run.
  rewrite (proj1 (sub_scan_single false _ _ (rmatch_In_single true _) repl s)).
  apply replace_runs_ext. intros c.
  unfold set_has, outside_az09. simpl. rewrite orb_false_r. reflexivity.
Qed.

Lemma sub_underscore_run (repl s : str) :
  Re.sub underscore_run repl s = replace_runs is_underscore repl false s.
Proof.
  unfold Re.sub, underscore_run.
  rewrite (proj1 (sub_scan_single false _ _ (rmatch_Lit_single "_") repl s)).
  reflexivity.
Qed.

Lemma az09_not_underscore (c : ascii) :
  outside_az09 c = false -> is_underscore c = false.
Proof.
  unfold outside_az09, is_underscore, between. intros H.
  apply negb_false_iff, orb_true_iff in H.
  change (ord "_") with 95%N. apply N.eqb_neq.
  destruct H as [H|H]; apply andb_true_iff in H; destruct H as [H1 H2];
    apply N.leb_le in H1, H2; lia.
Qed.

(** After the first substitution no two underscores are adjacent, so the
    second one, [re.sub(r"_+", "_", value)], changes nothing. *)
Lemma underscore_runs_collapsed (s : str) :
  (forall b, replace_runs is_underscore (s2l "_") b
               (replace_runs outside_az09 (s2l "_") true s)
             = replace_runs outside_az09 (s2l "_") true s)
  /\ replace_runs is_underscore (s2l "_") false
       (replace_runs outside_az09 (s2l "_") false s)
     = replace_runs outside_az09 (s2l "_") false s.
Proof.
  induction s as [|c s [IH1 IH2]]; [split; reflexivity|].
  cbn [replace_runs]. destruct (outside_az09 c) eqn:Hc.
  - split.
    + intros b. apply IH1.
    + simpl. f_equal. apply IH1.
  - pose proof (az09_not_underscore c Hc) as Hu. split.
    + intros b. cbn [replace_runs]. rewrite Hu. f_equal. exact IH2.
    + cbn [replace_runs]. rewrite Hu. f_equal. exact IH2.
Qed.

Lemma slugify_eq_spec (value : string) : slugify value = slugify_spec value.
Proof.
  unfold slugify, slugify_spec.
  rewrite sub_underscore_run, sub_non_alnum_run.
  rewrite (proj2 (underscore_runs_collapsed _)). reflexivity.
Qed.

(** A run of class characters that ends at a character outside the class,
    or at the end of the text, is replaced as a whole. *)
Lemma replace_runs_maximal (p : ascii -> bool) (repl run rest : str) :
  run <> [] ->
  forallb p run = true ->
  match rest with [] => True | c :: _ => p c = false end ->
  replace_runs p repl false (run ++ rest) = repl ++ replace_runs p repl false rest.
Proof.
  intros Hne Hall Hrest.
  assert (Hin : replace_runs p repl true (run ++ rest)
                = replace_runs p repl false rest).
  { clear Hne. induction run as [|c run IH]; simpl in *.
    - destruct rest as [|c rest]; [reflexivity|]. simpl. rewrite Hrest. reflexivity.
    - apply andb_true_iff in Hall. destruct Hall as [Hc Hall].
      rewrite Hc. simpl. apply IH. exact Hall. }
  destruct run as [|c run]; [congruence|].
  simpl in Hall. apply andb_true_iff in Hall. destruct Hall as [Hc Hall].
  change (replace_runs p repl false ((c :: run) ++ rest))
    with (if p c then repl ++ replace_runs p repl true (run ++ rest)
          else c :: replace_runs p repl false (run ++ rest)).
  rewrite Hc. f_equal.
  destruct run as [|c' run].
  - simpl. destruct rest as [|d rest]; [reflexivity|].
    simpl. rewrite Hrest. reflexivity.
  - change (replace_runs p repl true ((c' :: run) ++ rest)
            = replace_runs p repl false rest).
    revert Hin. simpl. rewrite Hc. simpl. auto.
Qed.

(** C9. For every input string [slugify] lower-cases it, replaces every
    maximal run of characters outside [a-z0-9] by one underscore, strips
    leading and trailing underscores and returns ["endpoint"] when nothing
    is left: it equals [slugify_spec], the function the specification
    describes.  In particular [slugify "GET /users/{id}"] is
    ["get_users_id"]. *)
Theorem slugify_refines_spec :
  (forall value : string, slugify value = slugify_spec value)
  /\ slugify "GET /users/{id}" = "get_users_id"
  /\ slugify "" = "endpoint".
Proof.
  split; [exact slugify_eq_spec|]. split; vm_compute; reflexivity.
Qed.

(** ** extract_endpoints *)

(** C8. On ["GET /users POST /users DELETE /users/{id}"] the extractor
    returns exactly three entries in order of appearance, (GET, /users),
    (POST, /users), (DELETE, /users/{id}); every match yields one entry, and
    a repeated match is kept twice. *)
Theorem extract_endpoints_in_order :
  extract_endpoints "GET /users POST /users DELETE /users/{id}"
  = [ mkEndpointSpec "get_users" "GET" "/users"
        "Auto-detected endpoint for GET /users";
      mkEndpointSpec "post_users" "POST" "/users"
        "Auto-detected endpoint for POST /users";
      mkEndpointSpec "delete_users_id" "DELETE" "/users/{id}"
        "Auto-detected endpoint for DELETE /users/{id}" ]
  /\ (forall text : string,
        length (extract_endpoints text)
        = length (finditer true endpoint_pattern (s2l text)))
  /\ extract_endpoints "GET /users GET /users"
     = [ mkEndpointSpec "get_users" "GET" "/users"
           "Auto-detected endpoint for GET /users";
         mkEndpointSpec "get_users" "GET" "/users"
           "Auto-detected endpoint for GET /users" ].
Proof.
  split; [vm_compute; reflexivity|]. split.
  - intros text. unfold extract_endpoints. apply length_map.
  - vm_compute; reflexivity.
Qed.

(** C10. The pattern is not anchored at a word boundary: in
    ["BUDGET /plans"] the verb occurs only as the tail of a longer word, and
    the extractor still returns the endpoint (GET, /plans). *)
Theorem extract_endpoints_inside_word :
  extract_endpoints "BUDGET /plans"
  = [ mkEndpointSpec "get_plans" "GET" "/plans"
        "Auto-detected endpoint for GET /plans" ]
  /\ extract_endpoints "BUDGET /plans" <> [].
Proof.
  split; [vm_compute; reflexivity|]. vm_compute. discriminate.
Qed.

(** ** The orchestrator *)

Section Orchestrator.

Variable py_repr : json -> string.
Variable json_loads : string -> result json.
Variable responses_create : string -> string -> result string.

Local Abbreviation generate :=
  (generate_blueprint py_repr json_loads responses_create).
Local Abbreviation build :=
  (build_blueprint py_repr json_loads responses_create).

Lemma heuristic_generate (prompt : string) :
  generate (HeuristicLLMClient DEFAULT_BLUEPRINT_NAME) prompt
  = Ok (heuristic_blueprint prompt).
Proof. reflexivity. Qed.

Lemma build_blueprint_unfold (self : LLMOrchestrator) (documents : list string)
    (title : option string) :
  build self documents title =
  Ok (repaired
        (match generate (llm_client self) (_build_prompt documents title) with
         | Ok b => b
         | Raise _ => heuristic_blueprint (_build_prompt documents title)
         end)).
Proof.
  unfold build_blueprint, repaired.
  destruct (generate (llm_client self) (_build_prompt documents title)) as [b|e].
  - simpl. destruct (endpoints b); reflexivity.
  - rewrite heuristic_generate. unfold heuristic_blueprint. simpl.
    destruct (extract_endpoints (_build_prompt documents title)); reflexivity.
Qed.

Lemma repaired_nonempty (b : Blueprint) : endpoints (repaired b) <> [].
Proof.
  unfold repaired. destruct (endpoints b) eqn:E; simpl; [discriminate|].
  rewrite E. discriminate.
Qed.

(** C1. For every list of documents, every title and every primary strategy
    (whatever it returns or raises), [build_blueprint] returns a blueprint
    and raises nothing; the blueprint has at least one endpoint: when the
    blueprint obtained from the primary strategy, or from the heuristic one
    after a failure, has no endpoint, the result has exactly the synthetic
    endpoint named "health_check" with method "GET" and path "/"; otherwise
    the obtained blueprint is returned as it is. *)
Theorem build_blueprint_total (self : LLMOrchestrator) (documents : list string)
    (title : option string) :
  exists obtained result : Blueprint,
    match generate (llm_client self) (_build_prompt documents title) with
    | Ok b => Ok b
    | Raise _ => generate (HeuristicLLMClient DEFAULT_BLUEPRINT_NAME)
                   (_build_prompt documents title)
    end = Ok obtained
    /\ build self documents title = Ok result
    /\ endpoints result <> []
    /\ (endpoints obtained = [] ->
        endpoints result
        = [mkEndpointSpec "health_check" "GET" "/"
             "Fallback endpoint returning API availability information."])
    /\ (endpoints obtained <> [] -> result = obtained).
Proof.
  rewrite build_blueprint_unfold.
  destruct (generate (llm_client self) (_build_prompt documents title)) as [b|e].
  - exists b, (repaired b). split; [reflexivity|]. split; [reflexivity|].
    split; [apply repaired_nonempty|]. unfold repaired. split.
    + intros ->. reflexivity.
    + intros Hne. destruct (endpoints b); [congruence | reflexivity].
  - set (h := heuristic_blueprint (_build_prompt documents title)).
    exists h, (repaired h). split; [apply heuristic_generate|].
    split; [reflexivity|]. split; [apply repaired_nonempty|].
    unfold repaired. split.
    + intros ->. reflexivity.
    + intros Hne. destruct (endpoints h); [congruence | reflexivity].
Qed.

(** C2, as the code has it.  When the primary strategy raises on the
    constructed prompt, [build_blueprint] raises nothing and returns the
    blueprint of the heuristic strategy for that same prompt (the
    instructions, the optional title line and the documents joined by blank
    lines, not the raw documents), with the health-check endpoint added when
    the heuristic strategy found no endpoint; it is exactly the heuristic
    blueprint whenever that one has an endpoint. *)
Theorem build_blueprint_fallback (self : LLMOrchestrator) (documents : list string)
    (title : option string) (e : exn) :
  generate (llm_client self) (_build_prompt documents title) = Raise e ->
  let prompt := _build_prompt documents title in
  generate (HeuristicLLMClient DEFAULT_BLUEPRINT_NAME) prompt
  = Ok (heuristic_blueprint prompt)
  /\ build self documents title = Ok (repaired (heuristic_blueprint prompt))
  /\ (extract_endpoints prompt <> [] ->
      build self documents title
      = generate (HeuristicLLMClient DEFAULT_BLUEPRINT_NAME) prompt).
Proof.
  intros Hfail prompt. subst prompt. split; [reflexivity|].
  rewrite build_blueprint_unfold, Hfail.
  split; [reflexivity|]. intros Hne. rewrite heuristic_generate.
  unfold repaired. simpl.
  destruct (extract_endpoints (_build_prompt documents title)); [congruence|].
  reflexivity.
Qed.

(** C3, as the code has it.  Constructed without a strategy, the
    orchestrator's primary strategy is the heuristic client with the default
    blueprint name; an injected strategy is kept as it is.  With the default
    strategy [build_blueprint] is the repaired heuristic blueprint of the
    prompt and no remote call is made. *)
Theorem default_strategy_is_heuristic :
  llm_client (LLMOrchestrator_init None) = HeuristicLLMClient DEFAULT_BLUEPRINT_NAME
  /\ (forall c : LLMClient, llm_client (LLMOrchestrator_init (Some c)) = c)
  /\ (forall (documents : list string) (title : option string),
        build (LLMOrchestrator_init None) documents title
        = Ok (repaired (heuristic_blueprint (_build_prompt documents title)))).
Proof.
  split; [reflexivity|]. split; [reflexivity|].
  intros documents title. rewrite build_blueprint_unfold. reflexivity.
Qed.

End Orchestrator.

(** ** The response parser *)

Lemma endpoint_from_item_dict (py_repr : json -> string)
    (entries : list (string * json)) :
  let get key default :=
    match assoc key entries with Some x => x | None => default end in
  endpoint_from_item py_repr (JDict entries)
  = Ok (mkEndpointSpec
          (get "name"
             (JStr (slugify (py_str py_repr (get "method" (JStr "get")) +:+ " "
                             +:+ py_str py_repr (get "path" (JStr "/"))))))
          (get "method" (JStr "GET")) (get "path" (JStr "/"))
          (get "description" (JStr ""))).
Proof. reflexivity. Qed.

(** C7. When the decoder rejects the response text with a decode error, the
    parser fails with a [ValueError] whose message carries that error (so for
    the text "not json"); when the text decodes to
    [{"endpoints":[{"method":"get","path":"/x"}]}] the parser returns a
    blueprint with exactly one endpoint, named [slugify "get /x"], whose
    method is "get" as in the source (not upper-cased), with the default
    description "", and with the generic blueprint name and summary.  In
    general a missing path becomes "/", a missing description "", a missing
    method "GET", a present method is stored unchanged, and a missing
    blueprint name or summary becomes the generic default. *)
Theorem parse_response_spec (py_repr : json -> string)
    (json_loads : string -> result json) :
  (forall text exc : string,
      json_loads text = Raise (JSONDecodeError exc) ->
      _parse_response py_repr json_loads text
      = Raise (ValueError ("Model response is not valid JSON: " +:+ exc)))
  /\ _parse_response py_repr Json.json_decode "not json"
     = Raise (ValueError
                "Model response is not valid JSON: Expecting value: line 1 column 1 (char 0)")
  /\ (forall text : string,
        json_loads text = Ok one_endpoint_value ->
        _parse_response py_repr json_loads text = Ok one_endpoint_blueprint)
  /\ Json.json_decode one_endpoint_body = Ok one_endpoint_value
  /\ _parse_response py_repr Json.json_decode one_endpoint_body
     = Ok one_endpoint_blueprint
  /\ name <$> endpoints one_endpoint_blueprint = [JStr "get_x"]
  /\ (forall entries : list (string * json),
        exists ep : EndpointSpec,
          endpoint_from_item py_repr (JDict entries) = Ok ep
          /\ (assoc "path" entries = None -> path ep = JStr "/")
          /\ (assoc "description" entries = None -> description ep = JStr "")
          /\ (assoc "method" entries = None -> method ep = JStr "GET")
          /\ (forall m, assoc "method" entries = Some m -> method ep = m))
  /\ (forall (entries : list (string * json)) (bp : Blueprint),
        blueprint_from_dict py_repr (JDict entries) = Ok bp ->
        (assoc "name" entries = None -> bp_name bp = JStr DEFAULT_BLUEPRINT_NAME)
        /\ (assoc "summary" entries = None -> summary bp = JStr "Generated MCP server")).
Proof.
  repeat apply conj.
  - intros text exc H. unfold _parse_response. rewrite H. reflexivity.
  - vm_compute. reflexivity.
  - intros text H. unfold _parse_response. rewrite H. vm_compute. reflexivity.
  - vm_compute. reflexivity.
  - vm_compute. reflexivity.
  - vm_compute. reflexivity.
  - intros entries. eexists. split; [apply endpoint_from_item_dict|]. simpl.
    repeat apply conj.
    + intros ->. reflexivity.
    + intros ->. reflexivity.
    + intros ->. reflexivity.
    + intros m ->. reflexivity.
  - intros entries bp. unfold blueprint_from_dict. simpl.
    destruct (py_iter _) as [items|e]; simpl; [|discriminate].
    destruct (mapM _ items) as [eps|e]; simpl; [|discriminate].
    destruct (py_iter _) as [pre|e]; simpl; [|discriminate].
    intros [= <-]. simpl. split; intros ->; reflexivity.
Qed.

(** C7, witness.  The parser run with the concrete decoder on the two
    texts. *)
Lemma parse_response_spec_witness :
  Json.json_decode "not json"
  = Raise (JSONDecodeError "Expecting value: line 1 column 1 (char 0)")
  /\ _parse_response repr_unused Json.json_decode "not json"
     = Raise (ValueError
                "Model response is not valid JSON: Expecting value: line 1 column 1 (char 0)")
  /\ _parse_response repr_unused Json.json_decode one_endpoint_body
     = Ok one_endpoint_blueprint.
Proof.
  split; [vm_compute; reflexivity|]. split.
  - apply (proj1 (parse_response_spec repr_unused Json.json_decode)).
    vm_compute. reflexivity.
  - apply (proj1 (proj2 (proj2 (parse_response_spec repr_unused Json.json_decode)))).
    vm_compute. reflexivity.
Defined.

(** ** Closed instances for the orchestrator *)

(** C2, counterexample.  With no documents and no title, and a primary
    strategy that raises, [build_blueprint] returns the heuristic blueprint
    plus the health check: not the blueprint of the heuristic strategy run
    on the prompt, which has no endpoint. *)
Lemma build_blueprint_fallback_counterexample :
  generate_blueprint repr_unused Json.json_decode offline_service
    (llm_client remote_orchestrator) (_build_prompt [] None)
  = Raise (OtherException "APIConnectionError" "Connection error.")
  /\ generate_blueprint repr_unused Json.json_decode offline_service
       (HeuristicLLMClient DEFAULT_BLUEPRINT_NAME) (_build_prompt [] None)
     = Ok (mkBlueprint DEFAULT_BLUEPRINT_NAME
             "Heuristically generated MCP server blueprint" [] [])
  /\ build_blueprint repr_unused Json.json_decode offline_service
       remote_orchestrator [] None
     = Ok (mkBlueprint DEFAULT_BLUEPRINT_NAME
             "Heuristically generated MCP server blueprint" [health_check] [])
  /\ build_blueprint repr_unused Json.json_decode offline_service
       remote_orchestrator [] None
     <> generate_blueprint repr_unused Json.json_decode offline_service
          (HeuristicLLMClient DEFAULT_BLUEPRINT_NAME) (_build_prompt [] None).
Proof.
  split; [reflexivity|]. split; [vm_compute; reflexivity|].
  split; [vm_compute; reflexivity|]. vm_compute. discriminate.
Qed.

(** C2, witness.  The remote service is unreachable and the document names
    an endpoint. *)
Lemma build_blueprint_fallback_witness :
  generate_blueprint repr_unused Json.json_decode offline_service
    (llm_client remote_orchestrator) (_build_prompt ["GET /items"] None)
  = Raise (OtherException "APIConnectionError" "Connection error.")
  /\ build_blueprint repr_unused Json.json_decode offline_service
       remote_orchestrator ["GET /items"] None
     = Ok (repaired (heuristic_blueprint (_build_prompt ["GET /items"] None))).
Proof.
  split; [reflexivity|].
  refine (proj1 (proj2
            (build_blueprint_fallback repr_unused Json.json_decode offline_service
               remote_orchestrator ["GET /items"] None
               (OtherException "APIConnectionError" "Connection error.") _))).
  reflexivity.
Defined.

(** C3, counterexample.  The strategy of an orchestrator constructed
    without one is not the remote client. *)
Lemma default_strategy_counterexample :
  ~ (exists api_key model : string,
        llm_client (LLMOrchestrator_init None) = OpenAILLMClient api_key model).
Proof. intros (api_key & model & H). discriminate H. Qed.

(** ** The crawler *)

Section CrawlerProperties.

Variable urlparse_netloc : string -> result string.
Variable re_fullmatch : string -> string -> result bool.
Variable session_get : list string -> string -> result response.
Variable soup_title_string : string -> option string.
Variable soup_text : string -> string.
Variable soup_hrefs : string -> list string.
Variable unescape : string -> string.
Variable urljoin : string -> string -> result string.

Local Abbreviation allowed := (_url_allowed urlparse_netloc re_fullmatch).
Local Abbreviation step :=
  (crawl_step urlparse_netloc re_fullmatch session_get soup_title_string
     soup_text soup_hrefs unescape urljoin).
Local Abbreviation run_for :=
  (crawl_run urlparse_netloc re_fullmatch session_get soup_title_string
     soup_text soup_hrefs unescape urljoin).

(** What one iteration does to [visited] and [requested]. *)
Lemma crawl_step_inv (self : DocumentationCrawler) (st st' : crawl_state) :
  step self st = Continue st' \/ (exists e, step self st = Abort e st') ->
  exists (url : string) (q' : list string),
    q st = url :: q'
    /\ (Z.of_nat (size (visited st)) < max_pages (config self))%Z
    /\ ((url ∈ visited st /\ visited st' = visited st /\ q st' = q'
         /\ requested st' = requested st)
        \/ ((url ∉ visited st) /\ visited st' = {[url]} ∪ visited st
            /\ (requested st' = requested st
                \/ (requested st' = requested st ++ [url]
                    /\ allowed self url = Ok true)))).
Proof.
  unfold crawl_step. intros H.
  destruct (q st) as [|url q'] eqn:Hq; [destruct H as [H|[e H]]; discriminate|].
  exists url, q'. split; [reflexivity|].
  destruct (Z.of_nat (size (visited st)) <? max_pages (config self))%Z eqn:Hcap;
    simpl in H; [|destruct H as [H|[e H]]; discriminate].
  apply Z.ltb_lt in Hcap. split; [exact Hcap|].
  destruct (decide (url ∈ visited st)) as [Hin|Hnin].
  - left. destruct H as [H|[e H]]; [|discriminate].
    injection H as <-. auto.
  - right. split; [exact Hnin|].
    destruct (allowed self url) as [[|]|e0] eqn:Hallowed.
    + repeat case_match; destruct H as [H|[e' H]]; simplify_eq; simpl; auto.
    + destruct H as [H|[e' H]]; simplify_eq; simpl; auto.
    + destruct H as [H|[e' H]]; simplify_eq; simpl; auto.
Qed.

Lemma crawl_run_ind (P : crawl_state -> Prop) (self : DocumentationCrawler) :
  (forall st st',
      P st ->
      step self st = Continue st' \/ (exists e, step self st = Abort e st') ->
      P st') ->
  forall (n : nat) (st : crawl_state), P st -> P (run_for self n st).
Proof.
  intros Hstep n. induction n as [|n IH]; intros st HP; simpl; [exact HP|].
  destruct (step self st) as [|st'|e st'] eqn:Hs.
  - exact HP.
  - apply IH. apply (Hstep st st' HP). left. exact Hs.
  - apply (Hstep st st' HP). right. exists e. exact Hs.
Qed.

Lemma crawl_step_within_cap (self : DocumentationCrawler) (st st' : crawl_state) :
  within_cap self st ->
  step self st = Continue st' \/ (exists e, step self st = Abort e st') ->
  within_cap self st'.
Proof.
  unfold within_cap. intros Hinv Hs.
  destruct (crawl_step_inv self st st' Hs)
    as (url & q' & _ & Hcap & [(_ & -> & _)|(Hnin & -> & _)]); [exact Hinv|].
  rewrite size_union by (apply disjoint_singleton_l; exact Hnin).
  rewrite size_singleton. lia.
Qed.

(** The loop ends: [max_pages - len(visited)] cannot grow, and while it
    stays the same the queue shrinks. *)
Lemma crawl_loop_terminates (self : DocumentationCrawler) (m : nat) :
  forall st : crawl_state,
    (Z.to_nat (max_pages (config self) - Z.of_nat (size (visited st))) <= m)%nat ->
    exists fuel : nat,
      crawl_loop urlparse_netloc re_fullmatch session_get soup_title_string
        soup_text soup_hrefs unescape urljoin self fuel st <> None.
Proof.
  induction m as [|m IHm].
  - intros st Hm. exists 1%nat. simpl.
    destruct (step self st) as [|st'|e st'] eqn:Hs; try discriminate.
    destruct (crawl_step_inv self st st' (or_introl Hs)) as (u & q' & _ & Hcap & _).
    lia.
  - intros st. remember (length (q st)) as k eqn:Hk.
    revert st Hk. induction k as [k IHk] using lt_wf_ind. intros st Hk Hm.
    destruct (step self st) as [|st'|e st'] eqn:Hs.
    + exists 1%nat. simpl. rewrite Hs. discriminate.
    + destruct (crawl_step_inv self st st' (or_introl Hs))
        as (u & q' & Hq & Hcap & [(_ & Hv & Hq' & _)|(Hnin & Hv & _)]).
      * destruct (IHk (length (q st'))) with (st := st') as [fuel Hfuel].
        { rewrite Hk, Hq, Hq'. simpl. lia. }
        { reflexivity. }
        { rewrite Hv. exact Hm. }
        exists (S fuel). simpl. rewrite Hs. exact Hfuel.
      * destruct (IHm st') as [fuel Hfuel].
        { rewrite Hv.
          rewrite size_union by (apply disjoint_singleton_l; exact Hnin).
          rewrite size_singleton. lia. }
        exists (S fuel). simpl. rewrite Hs. exact Hfuel.
    + exists 1%nat. simpl. rewrite Hs. discriminate.
Qed.

(** C4, as the code has it.  For every configuration, start URL and network
    behaviour, after any number of iterations of the crawl loop, and so at
    its end, the number of distinct visited URLs is at most [max_pages] when
    [max_pages] is not negative, and is 0 when it is negative: it never
    exceeds [max 0 max_pages].  The loop does end. *)
Theorem visited_within_cap (self : DocumentationCrawler) :
  (forall n : nat,
      (Z.of_nat (size (visited (run_for self n (initial self))))
       <= Z.max 0 (max_pages (config self)))%Z)
  /\ exists (fuel : nat) (outcome : result Corpus),
       crawl urlparse_netloc re_fullmatch session_get soup_title_string
         soup_text soup_hrefs unescape urljoin self fuel = Some outcome.
Proof.
  split.
  - intros n. apply (crawl_run_ind (within_cap self)).
    + intros st st' HP Hs. exact (crawl_step_within_cap self st st' HP Hs).
    + unfold within_cap, initial. cbn [visited]. rewrite size_empty. lia.
  - destruct (crawl_loop_terminates self _ (initial self) (Nat.le_refl _))
      as [fuel Hfuel].
    exists fuel. unfold crawl.
    destruct (crawl_loop _ _ _ _ _ _ _ _ self fuel (initial self)) as [outcome|];
      [eauto|congruence].
Qed.

Lemma crawl_run_requests_allowed (self : DocumentationCrawler) (n : nat) :
  requests_allowed urlparse_netloc re_fullmatch self (run_for self n (initial self)).
Proof.
  apply (crawl_run_ind (requests_allowed urlparse_netloc re_fullmatch self)).
  - unfold requests_allowed. intros st st' HP Hs url Hin.
    destruct (crawl_step_inv self st st' Hs)
      as (u & q' & _ & _ & [(_ & _ & _ & Hr)|(_ & _ & [Hr|[Hr Hok]])]);
      rewrite Hr in Hin; auto.
    apply elem_of_app in Hin. destruct Hin as [Hin|Hin]; [auto|].
    apply list_elem_of_singleton in Hin. subst. exact Hok.
  - intros url Hin. simpl in Hin. inversion Hin.
Qed.

Lemma url_allowed_netloc (self : DocumentationCrawler) (url : string) :
  allowed self url = Ok true -> urlparse_netloc url = Ok (allowed_netloc self).
Proof.
  unfold _url_allowed. destruct (urlparse_netloc url) as [netloc|e]; simpl;
    [|discriminate].
  destruct (String.eqb netloc (allowed_netloc self)) eqn:Heq; simpl;
    [|discriminate].
  apply String.eqb_eq in Heq. subst. reflexivity.
Qed.

Lemma url_allowed_other_host (self : DocumentationCrawler) (url host : string) :
  urlparse_netloc url = Ok host ->
  host <> allowed_netloc self ->
  allowed self url = Ok false.
Proof.
  intros Hparse Hne. unfold _url_allowed. rewrite Hparse. simpl.
  apply String.eqb_neq in Hne. rewrite Hne. reflexivity.
Qed.

(** C5. In any crawl, every URL handed to the fetch step has passed the
    scope check, and its parsed network location equals that of the start
    URL; the scope check rejects every URL whose parsed network location
    differs from it.  So no URL with another host is fetched. *)
Theorem fetched_urls_on_start_host (start : string) (cfg : option CrawlConfig)
    (self : DocumentationCrawler) (n : nat) (url : string) :
  DocumentationCrawler_init urlparse_netloc start cfg = Ok self ->
  url ∈ requested (run_for self n (initial self)) ->
  allowed self url = Ok true
  /\ (exists host : string,
        urlparse_netloc start = Ok host /\ urlparse_netloc url = Ok host)
  /\ (forall other host : string,
        urlparse_netloc other = Ok host ->
        urlparse_netloc start <> Ok host ->
        allowed self other = Ok false).
Proof.
  intros Hinit Hin.
  pose proof (crawl_run_requests_allowed self n url Hin) as Hok.
  split; [exact Hok|].
  unfold DocumentationCrawler_init in Hinit.
  destruct (urlparse_netloc start) as [host|e] eqn:Hstart; simpl in Hinit;
    [|discriminate].
  injection Hinit as <-. split.
  - exists host. split; [reflexivity|]. apply (url_allowed_netloc _ url Hok).
  - intros other host' Hparse Hne.
    apply (url_allowed_other_host _ other host' Hparse). simpl. congruence.
Qed.

Lemma any_fullmatch_hit (patterns : list string) (url : string) :
  (exists p, p ∈ patterns /\ re_fullmatch p url = Ok true) ->
  any_fullmatch re_fullmatch patterns url <> Ok false.
Proof.
  intros (p & Hin & Hp). induction patterns as [|p0 rest IH]; [inversion Hin|].
  simpl. apply elem_of_cons in Hin. destruct Hin as [<-|Hin].
  - rewrite Hp. simpl. discriminate.
  - destruct (re_fullmatch p0 url) as [[|]|e]; simpl; [discriminate|auto|discriminate].
Qed.

Lemma any_fullmatch_defined (patterns : list string) (url : string) :
  (forall p, p ∈ patterns -> exists b, re_fullmatch p url = Ok b) ->
  exists b, any_fullmatch re_fullmatch patterns url = Ok b.
Proof.
  induction patterns as [|p0 rest IH]; intros Hdef; simpl; [eauto|].
  destruct (Hdef p0) as [b Hb]; [left|]. rewrite Hb. simpl.
  destruct b; [eauto|]. apply IH. intros p Hp. apply Hdef. right. exact Hp.
Qed.

(** C6. For all allow and deny patterns, a URL that fully matches some
    allow pattern and some deny pattern never passes the scope check, and is
    never fetched in any crawl; when the URL parses and every pattern is a
    valid expression the scope check returns False. *)
Theorem deny_precedence (self : DocumentationCrawler) (url : string) :
  (exists p, p ∈ allow_patterns (config self) /\ re_fullmatch p url = Ok true) ->
  (exists p, p ∈ deny_patterns (config self) /\ re_fullmatch p url = Ok true) ->
  allowed self url <> Ok true
  /\ ((exists netloc, urlparse_netloc url = Ok netloc) ->
      (forall p, p ∈ allow_patterns (config self) ++ deny_patterns (config self) ->
                 exists b, re_fullmatch p url = Ok b) ->
      allowed self url = Ok false)
  /\ (forall n : nat, url ∉ requested (run_for self n (initial self))).
Proof.
  intros Hallow Hdeny.
  pose proof (any_fullmatch_hit _ url Hdeny) as Hd.
  assert (Hno : allowed self url <> Ok true).
  { unfold _url_allowed.
    destruct (urlparse_netloc url) as [netloc|e]; simpl; [|discriminate].
    destruct (negb (String.eqb netloc (allowed_netloc self))); [discriminate|].
    match goal with
    | |- rbind ?a _ <> _ => destruct a as [[|]|e]; simpl
    end; [|discriminate|discriminate].
    destruct (any_fullmatch re_fullmatch (deny_patterns (config self)) url)
      as [[|]|e]; simpl; [discriminate|congruence|discriminate]. }
  split; [exact Hno|]. split.
  - intros [netloc Hn] Hvalid.
    destruct (any_fullmatch_defined (allow_patterns (config self)) url) as [ba Ha].
    { intros p Hp. apply Hvalid. apply elem_of_app. left. exact Hp. }
    destruct (any_fullmatch_defined (deny_patterns (config self)) url) as [bd Hbd].
    { intros p Hp. apply Hvalid. apply elem_of_app. right. exact Hp. }
    revert Hno. unfold _url_allowed. rewrite Hn. simpl.
    destruct (negb (String.eqb netloc (allowed_netloc self))); [reflexivity|].
    rewrite Hbd.
    destruct (allow_patterns (config self)) as [|p0 rest]; simpl in *.
    + destruct bd; [reflexivity|congruence].
    + rewrite Ha. simpl. destruct ba; simpl; [|reflexivity].
      destruct bd; [reflexivity|congruence].
  - intros n Hin. apply Hno. exact (crawl_run_requests_allowed self n url Hin).
Qed.

End CrawlerProperties.

(** ** Closed instances for the crawler *)

(** C4, counterexample.  With [max_pages = -1] the loop body never runs:
    the crawl returns an empty corpus, no URL is visited, and 0 exceeds the
    configured cap. *)
Lemma visited_within_cap_counterexample :
  DocumentationCrawler_init Fixture.netloc "http://docs/"
    (Some (Fixture.site_config (-1))) = Ok (Fixture.crawler (-1))
  /\ size (visited (Fixture.run (-1) 0)) = 0%nat
  /\ size (visited (Fixture.run (-1) 5)) = 0%nat
  /\ ~ (Z.of_nat (size (visited (Fixture.run (-1) 5)))
        <= max_pages (config (Fixture.crawler (-1))))%Z.
Proof.
  split; [vm_compute; reflexivity|]. split; [vm_compute; reflexivity|].
  split; [vm_compute; reflexivity|]. vm_compute. intros H. apply H. reflexivity.
Qed.

(** C5, witness.  The JSON page of the site is fetched, and it is on the
    start host. *)
Lemma fetched_urls_on_start_host_witness :
  "http://docs/api" ∈ requested (Fixture.run 20 5)
  /\ Fixture.netloc "http://docs/api" = Ok "docs"
  /\ exists host : string,
       Fixture.netloc "http://docs/" = Ok host
       /\ Fixture.netloc "http://docs/api" = Ok host.
Proof.
  assert (Hin : "http://docs/api" ∈ requested (Fixture.run 20 5)).
  { vm_compute. apply list_elem_of_In. simpl. tauto. }
  split; [exact Hin|]. split; [vm_compute; reflexivity|].
  refine (proj1 (proj2 (fetched_urls_on_start_host Fixture.netloc Fixture.fullmatch
                   Fixture.session Fixture.title_string (fun html => html)
                   Fixture.hrefs (fun s => s) Fixture.join_url
                   "http://docs/" (Some (Fixture.site_config 20))
                   (Fixture.crawler 20) 5 "http://docs/api" _ Hin))).
  vm_compute. reflexivity.
Defined.

(** C6, witness.  The private page matches the allow pattern [.*] and the
    deny pattern, and is refused. *)
Lemma deny_precedence_witness :
  Fixture.fullmatch ".*" "http://docs/private" = Ok true
  /\ Fixture.fullmatch "http://docs/private" "http://docs/private" = Ok true
  /\ _url_allowed Fixture.netloc Fixture.fullmatch (Fixture.crawler 20)
       "http://docs/private" <> Ok true.
Proof.
  split; [vm_compute; reflexivity|]. split; [vm_compute; reflexivity|].
  refine (proj1 (deny_precedence Fixture.netloc Fixture.fullmatch
                   Fixture.session Fixture.title_string (fun html => html)
                   Fixture.hrefs (fun s => s) Fixture.join_url
                   (Fixture.crawler 20) "http://docs/private" _ _)).
  - exists ".*". split; [left | vm_compute; reflexivity].
  - exists "http://docs/private". split; [left | vm_compute; reflexivity].
Defined.

(** * Further properties *)

(** ** More on slugify *)

Lemma replace_runs_slug_chars (b : bool) (s : str) :
  forallb slug_char (replace_runs outside_az09 (s2l "_") b s) = true.
Proof.
  revert b. induction s as [|c s IH]; intros b; [reflexivity|].
  cbn [replace_runs]. destruct (outside_az09 c) eqn:Hc.
  - destruct b; simpl; apply IH.
  - simpl. rewrite IH. unfold slug_char. rewrite Hc. reflexivity.
Qed.

Lemma no_adjacent_cons (p : ascii -> bool) (a : ascii) (t : str) :
  no_adjacent p (a :: t) = (negb (p a) || head_outside p t) && no_adjacent p t.
Proof.
  destruct t as [|b t]; simpl.
  - rewrite orb_true_r. reflexivity.
  - rewrite negb_andb. reflexivity.
Qed.

Lemma replace_runs_no_adjacent (s : str) :
  (head_outside is_underscore (replace_runs outside_az09 (s2l "_") true s) = true
   /\ no_adjacent is_underscore (replace_runs outside_az09 (s2l "_") true s) = true)
  /\ no_adjacent is_underscore (replace_runs outside_az09 (s2l "_") false s) = true.
Proof.
  set (us := s2l "_").
  assert (Hus : forall t, us ++ t = "_"%char :: t) by reflexivity.
  induction s as [|c s [[IHh IHt] IHf]]; [repeat split; reflexivity|].
  cbn [replace_runs]. destruct (outside_az09 c) eqn:Hc; cbn [app].
  - split; [split; assumption|].
    rewrite Hus, no_adjacent_cons, IHh, IHt, orb_true_r. reflexivity.
  - pose proof (az09_not_underscore c Hc) as Hu.
    assert (H : no_adjacent is_underscore
                  (c :: replace_runs outside_az09 us false s) = true).
    { rewrite no_adjacent_cons, Hu, IHf. reflexivity. }
    split; [split|]; [simpl; rewrite Hu; reflexivity | exact H | exact H].
Qed.

Section Strip.

Variable p : ascii -> bool.

Lemma lstrip_suffix (s : str) : exists junk, s = junk ++ lstrip p s.
Proof.
  induction s as [|c s [junk IH]]; [exists []; reflexivity|].
  simpl. destruct (p c).
  - exists (c :: junk). simpl. f_equal. exact IH.
  - exists []. reflexivity.
Qed.

Lemma lstrip_head (s : str) : head_outside p (lstrip p s) = true.
Proof.
  induction s as [|c s IH]; [reflexivity|].
  simpl. destruct (p c) eqn:Hc; [exact IH|]. simpl. rewrite Hc. reflexivity.
Qed.

Lemma rstrip_prefix (s : str) : exists junk, s = rstrip p s ++ junk.
Proof.
  unfold rstrip. destruct (lstrip_suffix (rev s)) as [junk H].
  exists (rev junk). rewrite <- rev_app_distr, <- H, rev_involutive. reflexivity.
Qed.

Lemma rstrip_last (s : str) : head_outside p (rev (rstrip p s)) = true.
Proof. unfold rstrip. rewrite rev_involutive. apply lstrip_head. Qed.

Lemma lstrip_fixed (s : str) : head_outside p s = true -> lstrip p s = s.
Proof.
  destruct s as [|c s]; [reflexivity|]. simpl. intros H.
  apply negb_true_iff in H. rewrite H. reflexivity.
Qed.

Lemma strip_fixed (s : str) :
  head_outside p s = true -> head_outside p (rev s) = true -> strip p s = s.
Proof.
  intros Hh Hl. unfold strip, rstrip. rewrite (lstrip_fixed s Hh).
  rewrite (lstrip_fixed (rev s) Hl). apply rev_involutive.
Qed.

Lemma strip_ends (s : str) :
  head_outside p (strip p s) = true /\ head_outside p (rev (strip p s)) = true.
Proof.
  unfold strip. split; [|apply rstrip_last].
  destruct (rstrip_prefix (lstrip p s)) as [junk H].
  pose proof (lstrip_head s) as Hh. rewrite H in Hh.
  destruct (rstrip p (lstrip p s)); [reflexivity | exact Hh].
Qed.

(** The stripped text is a contiguous part of the text. *)
Lemma strip_infix (s : str) : exists l r, s = l ++ strip p s ++ r.
Proof.
  unfold strip. destruct (lstrip_suffix s) as [l Hl].
  destruct (rstrip_prefix (lstrip p s)) as [r Hr].
  exists l, r. rewrite <- Hr. exact Hl.
Qed.

End Strip.

Lemma no_adjacent_app_r (p : ascii -> bool) (l r : str) :
  no_adjacent p (l ++ r) = true -> no_adjacent p r = true.
Proof.
  induction l as [|a l IH]; [auto|]. intros H. apply IH.
  change ((a :: l) ++ r) with (a :: (l ++ r)) in H. cbn [no_adjacent] in H.
  destruct (l ++ r); [reflexivity|]. apply andb_true_iff in H. tauto.
Qed.

Lemma no_adjacent_app_l (p : ascii -> bool) (l r : str) :
  no_adjacent p (l ++ r) = true -> no_adjacent p l = true.
Proof.
  induction l as [|a l IH]; [reflexivity|]. intros H.
  change ((a :: l) ++ r) with (a :: (l ++ r)) in H. cbn [no_adjacent] in H.
  destruct l as [|b l]; [reflexivity|].
  change ((b :: l) ++ r) with (b :: (l ++ r)) in *.
  apply andb_true_iff in H. destruct H as [H1 H2].
  cbn [no_adjacent]. rewrite H1. simpl. apply IH. exact H2.
Qed.

(** The characters of the slug before the fallback to ["endpoint"]. *)
Lemma stripped_slug (s : str) :
  let r := strip is_underscore (replace_runs outside_az09 (s2l "_") false s) in
  forallb slug_char r = true
  /\ no_adjacent is_underscore r = true
  /\ head_outside is_underscore r = true
  /\ head_outside is_underscore (rev r) = true.
Proof.
  intros r. subst r.
  destruct (strip_infix is_underscore (replace_runs outside_az09 (s2l "_") false s))
    as (l & t & H).
  pose proof (replace_runs_slug_chars false s) as Hc.
  pose proof (proj2 (replace_runs_no_adjacent s)) as Hn.
  rewrite H in Hc, Hn. rewrite !forallb_app in Hc.
  apply andb_true_iff in Hc. destruct Hc as [_ Hc].
  apply andb_true_iff in Hc. destruct Hc as [Hc _].
  apply no_adjacent_app_r, no_adjacent_app_l in Hn.
  split; [exact Hc|]. split; [exact Hn|]. apply strip_ends.
Qed.

(** X1. A slug is never empty, consists only of the characters [a-z0-9_],
    neither begins nor ends with an underscore, and has no two underscores
    in a row. *)
Theorem slugify_shape (value : string) :
  let slug := s2l (slugify value) in
  slug <> []
  /\ forallb slug_char slug = true
  /\ no_adjacent is_underscore slug = true
  /\ head_outside is_underscore slug = true
  /\ head_outside is_underscore (rev slug) = true.
Proof.
  intros slug. subst slug. rewrite slugify_eq_spec. unfold slugify_spec.
  pose proof (stripped_slug (lower (s2l value))) as H. cbv zeta in H.
  destruct (strip is_underscore _) as [|c r] eqn:E.
  - vm_compute. repeat split; discriminate.
  - rewrite list_ascii_of_string_of_list_ascii. split; [discriminate | exact H].
Qed.

Lemma slug_char_lower (c : ascii) : slug_char c = true -> char_lower c = c.
Proof.
  unfold slug_char, outside_az09, is_underscore, char_lower, is_upper, between.
  change (ord "_") with 95%N. intros H.
  destruct (((65 <=? ord c)%N && (ord c <=? 90)%N
             || (192 <=? ord c)%N && (ord c <=? 214)%N
             || (216 <=? ord c)%N && (ord c <=? 222)%N)) eqn:Hu; [|reflexivity].
  exfalso. rewrite negb_involutive in H.
  repeat (rewrite orb_true_iff in H || rewrite orb_true_iff in Hu
          || rewrite andb_true_iff in H || rewrite andb_true_iff in Hu).
  rewrite !N.leb_le in *. rewrite N.eqb_eq in H. lia.
Qed.

Lemma lower_slug (r : str) : forallb slug_char r = true -> lower r = r.
Proof.
  induction r as [|c r IH]; [reflexivity|]. simpl. intros H.
  apply andb_true_iff in H. destruct H as [Hc Hr].
  rewrite (slug_char_lower c Hc), (IH Hr). reflexivity.
Qed.

Lemma is_underscore_eq (c : ascii) : is_underscore c = true -> c = "_"%char.
Proof.
  unfold is_underscore, ord. intros H. apply N.eqb_eq in H.
  rewrite <- (ascii_N_embedding c), H. reflexivity.
Qed.

Lemma replace_runs_slug (r : str) :
  forallb slug_char r = true ->
  no_adjacent is_underscore r = true ->
  (head_outside is_underscore r = true ->
   replace_runs outside_az09 (s2l "_") true r = r)
  /\ replace_runs outside_az09 (s2l "_") false r = r.
Proof.
  induction r as [|c r IH]; [split; reflexivity|]. intros Hc Hn.
  simpl in Hc. apply andb_true_iff in Hc. destruct Hc as [Hc Hr].
  rewrite no_adjacent_cons in Hn. apply andb_true_iff in Hn.
  destruct Hn as [Hadj Hn'].
  destruct (IH Hr Hn') as [IHt IHf].
  cbn [replace_runs]. destruct (outside_az09 c) eqn:Ho.
  - assert (Hu : is_underscore c = true).
    { unfold slug_char in Hc. rewrite Ho in Hc. exact Hc. }
    split.
    + simpl. rewrite Hu. discriminate.
    + rewrite Hu in Hadj. simpl in Hadj. rewrite (IHt Hadj).
      rewrite (is_underscore_eq c Hu). reflexivity.
  - split; intros; f_equal; exact IHf.
Qed.

(** X2. [slugify] is idempotent: a slug is its own slug. *)
Theorem slugify_idempotent (value : string) :
  slugify (slugify value) = slugify value.
Proof.
  rewrite !slugify_eq_spec.
  pose proof (stripped_slug (lower (s2l value))) as H. cbv zeta in H.
  remember (strip is_underscore
              (replace_runs outside_az09 (s2l "_") false (lower (s2l value))))
    as r eqn:Er.
  assert (Hv : slugify_spec value
               = match r with [] => "endpoint" | _ => l2s r end)
    by (rewrite Er; reflexivity).
  rewrite Hv. clear Hv Er.
  destruct r as [|c r]; [vm_compute; reflexivity|].
  destruct H as (Hc & Hn & Hh & Hl).
  unfold slugify_spec. rewrite list_ascii_of_string_of_list_ascii.
  rewrite (lower_slug _ Hc).
  rewrite (proj2 (replace_runs_slug _ Hc Hn)).
  rewrite (strip_fixed _ _ Hh Hl). reflexivity.
Qed.

Lemma ord_inj (a b : ascii) : ord a = ord b -> a = b.
Proof.
  unfold ord. intros H.
  rewrite <- (ascii_N_embedding a), <- (ascii_N_embedding b), H. reflexivity.
Qed.

Lemma star_loop_sound {R : Type} (ic : bool) (r : regex)
    (k : str -> groups -> option R) :
  (forall s g (k' : str -> groups -> option R) (x : R),
      rmatch ic r s g k' = Some x ->
      exists t s', s = t ++ s' /\ in_lang ic r t /\ k' s' g = Some x) ->
  forall n s g x,
    star_loop (rmatch ic r) k n s g = Some x ->
    exists ts s', s = concat ts ++ s' /\ Forall (in_lang ic r) ts /\ k s' g = Some x.
Proof.
  intros Hbody n. induction n as [|n IH]; intros s g x H; simpl in H.
  - exists [], s. auto.
  - destruct (rmatch ic r s g _) as [y|] eqn:Hb.
    + injection H as ->. apply Hbody in Hb.
      destruct Hb as (t & s1 & -> & Ht & Hk).
      destruct (length s1 <? length (t ++ s1))%nat; [|discriminate].
      apply IH in Hk. destruct Hk as (ts & s2 & -> & Hts & Hk).
      exists (t :: ts), s2. simpl. rewrite <- app_assoc. auto.
    + exists [], s. auto.
Qed.

(** A pattern without groups consumes a text of its language and leaves the
    groups alone. *)
Lemma rmatch_sound {R : Type} (ic : bool) (r : regex) :
  no_groups r = true ->
  forall (s : str) (g : groups) (k : str -> groups -> option R) (x : R),
    rmatch ic r s g k = Some x ->
    exists t s', s = t ++ s' /\ in_lang ic r t /\ k s' g = Some x.
Proof.
  induction r as [|c|negate items|r1 IH1 r2 IH2|r1 IH1 r2 IH2|r1 IH1|name r1 IH1];
    intros Hng s g k x H; cbn [rmatch] in H; cbn [no_groups] in Hng.
  - exists [], s. simpl. auto.
  - destruct s as [|y s']; [discriminate|].
    destruct (ord (fold_case ic y) =? ord (fold_case ic c))%N eqn:E; [|discriminate].
    apply N.eqb_eq, ord_inj in E. exists [y], s'. simpl. eauto.
  - destruct s as [|y s']; [discriminate|].
    destruct (set_has negate items (fold_case ic y)) eqn:E; [|discriminate].
    exists [y], s'. simpl. eauto.
  - apply andb_true_iff in Hng. destruct Hng as [H1 H2].
    apply (IH1 H1) in H. destruct H as (t1 & s1 & -> & Ht1 & H).
    apply (IH2 H2) in H. destruct H as (t2 & s2 & -> & Ht2 & H).
    exists (t1 ++ t2), s2. rewrite <- app_assoc. simpl. eauto 10.
  - apply andb_true_iff in Hng. destruct Hng as [H1 H2].
    destruct (rmatch ic r1 s g k) as [y|] eqn:E.
    + injection H as ->. apply (IH1 H1) in E.
      destruct E as (t & s' & -> & Ht & Hk). exists t, s'. simpl. auto.
    + apply (IH2 H2) in H.
      destruct H as (t & s' & -> & Ht & Hk). exists t, s'. simpl. auto.
  - apply (star_loop_sound ic r1 k) in H; [|intros; apply (IH1 Hng); assumption].
    destruct H as (ts & s' & -> & Hts & Hk). exists (concat ts), s'. simpl. eauto.
  - discriminate.
Qed.

Lemma firstn_consumed (t s' : str) :
  firstn (length (t ++ s') - length s') (t ++ s') = t.
Proof.
  rewrite length_app. replace (length t + length s' - length s')%nat
    with (length t) by lia.
  rewrite firstn_app, Nat.sub_diag, firstn_all. simpl. apply app_nil_r.
Qed.

(** A match of a pattern made of a group, a separator and a second group. *)
Lemma two_groups_sound {R : Type} (ic : bool) (n1 n2 : string) (a b c : regex)
    (s : str) (k : str -> groups -> option R) (x : R) :
  no_groups a = true -> no_groups b = true -> no_groups c = true ->
  rmatch ic (Cat (Group n1 a) (Cat b (Group n2 c))) s [] k = Some x ->
  exists ta tb tc s',
    s = ta ++ tb ++ tc ++ s'
    /\ in_lang ic a ta /\ in_lang ic b tb /\ in_lang ic c tc
    /\ k s' [(n2, tc); (n1, ta)] = Some x.
Proof.
  intros Ha Hb Hc H. cbn [rmatch] in H.
  apply (rmatch_sound ic a Ha) in H. destruct H as (ta & s1 & -> & Hta & H).
  apply (rmatch_sound ic b Hb) in H. destruct H as (tb & s2 & -> & Htb & H).
  apply (rmatch_sound ic c Hc) in H. destruct H as (tc & s3 & -> & Htc & H).
  unfold set_group in H. rewrite !firstn_consumed in H.
  exists ta, tb, tc, s3. auto 10.
Qed.

(** Every match reported by [scan] is a match of the pattern at a suffix of
    the text. *)
Lemma scan_matches (ic : bool) (r : regex) (s : str) :
  forall (skip : nat) (m : re_match),
    m ∈ scan ic r s skip ->
    exists pre s0 rest,
      s = pre ++ s0
      /\ (match_at ic r s0 = Some (rest, m_groups m)
          \/ match_nonempty_at ic r s0 = Some (rest, m_groups m)).
Proof.
  induction s as [|c s IH]; intros skip m Hin.
  - destruct skip; simpl in Hin; [|inversion Hin].
    destruct (match_at ic r []) as [[s' g]|] eqn:E; [|inversion Hin].
    simpl in Hin. apply elem_of_cons in Hin. destruct Hin as [->|Hin].
    + exists [], [], s'. simpl. auto.
    + destruct (match_nonempty_at ic r []) as [[s'' g']|] eqn:E2;
        [|inversion Hin].
      apply elem_of_cons in Hin. destruct Hin as [->|Hin]; [|inversion Hin].
      exists [], [], s''. simpl. auto.
  - assert (Hnext : forall k, m ∈ scan ic r s k ->
              exists pre s0 rest,
                c :: s = pre ++ s0
                /\ (match_at ic r s0 = Some (rest, m_groups m)
                    \/ match_nonempty_at ic r s0 = Some (rest, m_groups m))).
    { intros k Hk. destruct (IH k m Hk) as (pre & s0 & rest & -> & H).
      exists (c :: pre), s0, rest. auto. }
    destruct skip as [|k]; cbn [scan] in Hin; [|eauto].
    destruct (match_at ic r (c :: s)) as [[s' g]|] eqn:E; [|eauto].
    destruct (length (c :: s) - length s')%nat as [|j] eqn:El.
    + apply elem_of_cons in Hin. destruct Hin as [->|Hin].
      { exists [], (c :: s), s'. simpl. auto. }
      destruct (match_nonempty_at ic r (c :: s)) as [[s'' g']|] eqn:E2; [|eauto].
      apply elem_of_cons in Hin. destruct Hin as [->|Hin]; [|eauto].
      exists [], (c :: s), s''. simpl. auto.
    + apply elem_of_cons in Hin. destruct Hin as [->|Hin]; [|eauto].
      exists [], (c :: s), s'. simpl. auto.
Qed.

Lemma in_lang_word (ic : bool) (w t : str) :
  in_lang ic (word w) t -> map (fold_case ic) t = map (fold_case ic) w.
Proof.
  revert t. induction w as [|c w IH]; intros t H.
  - simpl in H. subst. reflexivity.
  - destruct w as [|d w].
    + simpl in H. destruct H as (x & -> & Hx). simpl. rewrite Hx. reflexivity.
    + change (word (c :: d :: w)) with (Cat (Lit c) (word (d :: w))) in H.
      cbn [in_lang] in H. destruct H as (t1 & t2 & -> & (x & -> & Hx) & H2).
      apply IH in H2. simpl in *. rewrite Hx, H2. reflexivity.
Qed.

Lemma in_lang_alts (ic : bool) (rs : list regex) (t : str) :
  in_lang ic (alts rs) t -> exists r, r ∈ rs /\ in_lang ic r t.
Proof.
  induction rs as [|r rs IH]; intros H.
  - simpl in H. destruct H as (x & _ & Hx). discriminate Hx.
  - destruct rs as [|r' rs].
    + exists r. split; [left | exact H].
    + change (alts (r :: r' :: rs)) with (Alt r (alts (r' :: rs))) in H.
      cbn [in_lang] in H. destruct H as [H|H].
      * exists r. split; [left | exact H].
      * destruct (IH H) as (r0 & Hin & Hr0). exists r0. split; [right|]; assumption.
Qed.

Lemma ord_chr (n : N) : (n < 256)%N -> ord (chr n) = n.
Proof. apply N_ascii_embedding. Qed.

Lemma ord_bounded (c : ascii) : (ord c < 256)%N.
Proof. apply N_ascii_bounded. Qed.

Lemma chr_ord (c : ascii) : chr (ord c) = c.
Proof. apply ascii_N_embedding. Qed.

(** A character that equals a capital ASCII letter up to case has that
    letter as its upper case. *)
Lemma char_upper_of_lower_eq (x c : ascii) :
  between 65 90 c = true ->
  char_lower x = char_lower c ->
  char_upper x = [c].
Proof.
  intros Hc Heq. pose proof (ord_bounded x) as Hx. pose proof (ord_bounded c) as Hb.
  unfold between in Hc. apply andb_true_iff in Hc. destruct Hc as [Hc1 Hc2].
  apply N.leb_le in Hc1, Hc2.
  assert (Hlc : ord (char_lower c) = (ord c + 32)%N).
  { unfold char_lower, is_upper, between.
    replace ((65 <=? ord c)%N && (ord c <=? 90)%N) with true
      by (symmetry; apply andb_true_iff; split; apply N.leb_le; lia).
    simpl. apply ord_chr. lia. }
  rewrite <- Heq in Hlc. unfold char_lower in Hlc.
  destruct (is_upper x) eqn:Hu.
  - rewrite ord_chr in Hlc.
    + assert (x = c) by (apply ord_inj; lia). subst x.
      unfold char_upper, between.
      replace ((97 <=? ord c)%N && (ord c <=? 122)%N) with false
        by (symmetry; apply andb_false_iff; left; apply N.leb_gt; lia).
      replace ((224 <=? ord c)%N && (ord c <=? 246)%N) with false
        by (symmetry; apply andb_false_iff; left; apply N.leb_gt; lia).
      replace ((248 <=? ord c)%N && (ord c <=? 254)%N) with false
        by (symmetry; apply andb_false_iff; left; apply N.leb_gt; lia).
      replace (ord c =? 223)%N with false by (symmetry; apply N.eqb_neq; lia).
      reflexivity.
    + unfold is_upper, between in Hu.
      repeat (rewrite orb_true_iff in Hu || rewrite andb_true_iff in Hu).
      rewrite !N.leb_le in Hu. lia.
  - unfold char_upper, between.
    replace ((97 <=? ord x)%N && (ord x <=? 122)%N) with true
      by (symmetry; apply andb_true_iff; split; apply N.leb_le; lia).
    simpl. f_equal. rewrite Hlc.
    replace (ord c + 32 - 32)%N with (ord c) by lia. apply chr_ord.
Qed.

Lemma upper_of_lower_eq (t w : str) :
  forallb (between 65 90) w = true ->
  map char_lower t = map char_lower w ->
  upper t = w.
Proof.
  revert t. induction w as [|c w IH]; intros t Hw Heq.
  - destruct t; [reflexivity | discriminate].
  - destruct t as [|x t]; [discriminate|]. simpl in *.
    apply andb_true_iff in Hw. destruct Hw as [Hc Hw].
    injection Heq as Hx Ht.
    rewrite (char_upper_of_lower_eq x c Hc Hx). simpl. f_equal.
    apply IH; assumption.
Qed.

Lemma char_lower_slash (x : ascii) : char_lower x = "/"%char -> x = "/"%char.
Proof.
  unfold char_lower. destruct (is_upper x) eqn:Hu; [|auto].
  intros H. exfalso. pose proof (ord_bounded x) as Hx.
  assert (Ho : ord (chr (ord x + 32)) = 47%N) by (rewrite H; reflexivity).
  unfold is_upper, between in Hu.
  repeat (rewrite orb_true_iff in Hu || rewrite andb_true_iff in Hu).
  rewrite !N.leb_le in Hu. rewrite ord_chr in Ho by lia. lia.
Qed.

Lemma in_lang_star_set (ic : bool) (negate : bool) (items : list set_item) (t : str) :
  in_lang ic (Star (In_ negate items)) t ->
  forallb (fun c => set_has negate items (fold_case ic c)) t = true.
Proof.
  cbn [in_lang]. intros (ts & -> & Hts).
  induction Hts as [|u ts (x & -> & Hx) _ IH]; [reflexivity|].
  simpl. rewrite Hx. exact IH.
Qed.

(** The groups of a match of [endpoint_pattern]: a verb up to case, and a
    slash followed by path characters. *)
Lemma endpoint_pattern_sound {R : Type} (s : str)
    (k : str -> groups -> option R) (x : R) :
  rmatch true endpoint_pattern s [] k = Some x ->
  exists (verb : string) (method space p rest : str),
    verb ∈ verbs
    /\ upper method = s2l verb
    /\ forallb path_char p = true
    /\ s = method ++ space ++ ("/"%char :: p) ++ rest
    /\ k rest [("path", "/"%char :: p); ("method", method)] = Some x.
Proof.
  unfold endpoint_pattern. intros H.
  apply two_groups_sound in H; [|reflexivity..].
  destruct H as (ta & tb & tc & s' & -> & Hta & _ & Htc & Hk).
  apply in_lang_alts in Hta. destruct Hta as (r & Hr & Hta).
  apply list_elem_of_fmap in Hr. destruct Hr as (verb & -> & Hverb).
  apply in_lang_word in Hta.
  cbn [in_lang] in Htc. destruct Htc as (t1 & t2 & -> & (y & -> & Hy) & Hstar).
  apply char_lower_slash in Hy. subst y.
  apply in_lang_star_set in Hstar.
  exists verb, ta, tb, t2, s'. split; [exact Hverb|]. split.
  - apply upper_of_lower_eq; [|exact Hta].
    clear -Hverb. unfold verbs in Hverb.
    repeat (apply elem_of_cons in Hverb; destruct Hverb as [->|Hverb];
            [reflexivity|]).
    inversion Hverb.
  - split; [exact Hstar|]. split; [reflexivity | exact Hk].
Qed.

Lemma scan_endpoint_pattern (s : str) (m : re_match) :
  m ∈ finditer true endpoint_pattern s ->
  exists (verb : string) (method space p pre rest : str),
    verb ∈ verbs
    /\ upper method = s2l verb
    /\ forallb path_char p = true
    /\ s = pre ++ method ++ space ++ ("/"%char :: p) ++ rest
    /\ m_groups m = [("path", "/"%char :: p); ("method", method)].
Proof.
  intros Hin. apply scan_matches in Hin.
  destruct Hin as (pre & s0 & rest & -> & [H|H]);
    apply endpoint_pattern_sound in H;
    destruct H as (verb & method & space & p & rest' & Hv & Hu & Hp & -> & Hk);
    exists verb, method, space, p, pre, rest'; repeat split; auto.
  - unfold accept in Hk. congruence.
  - destruct (_ <? _)%nat in Hk; [congruence | discriminate].
Qed.


Lemma no_slash_no_endpoints (text : string) :
  "/"%char ∉ s2l text -> extract_endpoints text = [].
Proof.
  intros Hno. unfold extract_endpoints.
  destruct (finditer true endpoint_pattern (s2l text)) as [|m ms] eqn:E;
    [reflexivity|].
  exfalso. apply Hno.
  assert (Hm : m ∈ finditer true endpoint_pattern (s2l text))
    by (rewrite E; left).
  apply scan_endpoint_pattern in Hm.
  destruct Hm as (verb & method & space & p & pre & rest & _ & _ & _ & -> & _).
  rewrite !elem_of_app. right. right. right. left. left.
Qed.

(** X4. A text without a slash has no endpoints. *)
Theorem extract_endpoints_needs_slash (text : string) :
  "/"%char ∉ s2l text -> extract_endpoints text = [].
Proof. exact (no_slash_no_endpoints text). Qed.

Lemma s2l_app (a b : string) : s2l (a +:+ b) = s2l a ++ s2l b.
Proof. induction a as [|c a IH]; simpl; [reflexivity | rewrite IH; reflexivity]. Qed.

Lemma join_without (c : ascii) (sep : string) (parts : list string) :
  c ∉ s2l sep ->
  (forall p, p ∈ parts -> c ∉ s2l p) ->
  c ∉ s2l (join sep parts).
Proof.
  intros Hsep. induction parts as [|p parts IH]; intros Hparts.
  - simpl. apply not_elem_of_nil.
  - destruct parts as [|p' parts].
    + simpl. apply Hparts. left.
    + change (join sep (p :: p' :: parts))
        with (p +:+ sep +:+ join sep (p' :: parts)).
      rewrite !s2l_app, !elem_of_app. intros [H|[H|H]].
      * revert H. apply Hparts. left.
      * exact (Hsep H).
      * revert H. apply IH. intros q Hq. apply Hparts. right. exact Hq.
Qed.

Lemma build_prompt_without_slash (documents : list string) (title : option string) :
  (forall doc, doc ∈ documents -> "/"%char ∉ s2l doc) ->
  (forall t, title = Some t -> "/"%char ∉ s2l t) ->
  "/"%char ∉ s2l (_build_prompt documents title).
Proof.
  intros Hdocs Htitle.
  assert (Hjoin : "/"%char ∉ s2l (join (nl +:+ nl) documents)).
  { apply join_without; [|exact Hdocs]. vm_compute. intros H.
    repeat (apply elem_of_cons in H; destruct H as [H|H]; [discriminate H|]).
    inversion H. }
  assert (Hlit : forall s : string,
             existsb (fun c => (ord c =? 47)%N) (s2l s) = false -> "/"%char ∉ s2l s).
  { intros s Hs Hin. apply list_elem_of_In in Hin.
    assert (existsb (fun c => (ord c =? 47)%N) (s2l s) = true).
    { apply existsb_exists. exists "/"%char. split; [exact Hin | reflexivity]. }
    congruence. }
  unfold _build_prompt.
  destruct title as [t|]; [destruct (String.eqb t "") eqn:Et|];
    rewrite !s2l_app; repeat (apply not_elem_of_app; split);
    first [ exact Hjoin
          | apply (Htitle t eq_refl)
          | apply Hlit; vm_compute; reflexivity ].
Qed.

Section OrchestratorMore.

Variable py_repr : json -> string.
Variable json_loads : string -> result json.
Variable responses_create : string -> string -> result string.

Local Abbreviation generate :=
  (generate_blueprint py_repr json_loads responses_create).
Local Abbreviation build :=
  (build_blueprint py_repr json_loads responses_create).

Lemma health_check_only (self : LLMOrchestrator)
    (documents : list string) (title : option string) :
  (exists e, generate (llm_client self) (_build_prompt documents title) = Raise e)
  \/ llm_client self = HeuristicLLMClient DEFAULT_BLUEPRINT_NAME ->
  (forall doc, doc ∈ documents -> "/"%char ∉ s2l doc) ->
  (forall t, title = Some t -> "/"%char ∉ s2l t) ->
  build self documents title
  = Ok (mkBlueprint DEFAULT_BLUEPRINT_NAME
          "Heuristically generated MCP server blueprint" [health_check] []).
Proof.
  intros Hprimary Hdocs Htitle.
  pose proof (no_slash_no_endpoints _
                (build_prompt_without_slash documents title Hdocs Htitle)) as Hnone.
  rewrite build_blueprint_unfold.
  assert (Hh : repaired (heuristic_blueprint (_build_prompt documents title))
               = mkBlueprint DEFAULT_BLUEPRINT_NAME
                   "Heuristically generated MCP server blueprint" [health_check] []).
  { unfold repaired, heuristic_blueprint. simpl. rewrite Hnone. reflexivity. }
  destruct Hprimary as [[e He]|Hc].
  - rewrite He. f_equal. exact Hh.
  - rewrite Hc. simpl. f_equal. exact Hh.
Qed.

(** X5. When the primary strategy raises, or is the heuristic client, and
    neither the title nor any document contains a slash, [build_blueprint]
    returns the heuristic blueprint whose only endpoint is the health
    check: the instructions of the prompt add no endpoint of their own. *)
Theorem build_blueprint_health_check_only (self : LLMOrchestrator)
    (documents : list string) (title : option string) :
  (exists e, generate (llm_client self) (_build_prompt documents title) = Raise e)
  \/ llm_client self = HeuristicLLMClient DEFAULT_BLUEPRINT_NAME ->
  (forall doc, doc ∈ documents -> "/"%char ∉ s2l doc) ->
  (forall t, title = Some t -> "/"%char ∉ s2l t) ->
  build self documents title
  = Ok (mkBlueprint DEFAULT_BLUEPRINT_NAME
          "Heuristically generated MCP server blueprint" [health_check] []).
Proof. exact (health_check_only self documents title). Qed.

End OrchestratorMore.

Section DecodingMore.

Variable py_repr : json -> string.

Lemma endpoint_from_item_cases (item : json) :
  match item with
  | JDict entries =>
      endpoint_from_item py_repr item = Ok (endpoint_of_entries py_repr entries)
  | _ => exists msg, endpoint_from_item py_repr item = Raise (AttributeError msg)
  end.
Proof. destruct item; first [reflexivity | eexists; reflexivity]. Qed.

Lemma mapM_endpoints_dicts (objs : list (list (string * json))) :
  mapM (endpoint_from_item py_repr) (map JDict objs)
  = Ok (map (endpoint_of_entries py_repr) objs).
Proof.
  induction objs as [|o objs IH]; [reflexivity|].
  cbn [map mapM]. rewrite IH. reflexivity.
Qed.

Lemma mapM_endpoints_cases (items : list json) :
  if forallb is_dict items
  then exists eps, mapM (endpoint_from_item py_repr) items = Ok eps
                   /\ length eps = length items
  else exists msg, mapM (endpoint_from_item py_repr) items = Raise (AttributeError msg).
Proof.
  induction items as [|item items IH]; [exists []; auto|].
  cbn [forallb mapM]. pose proof (endpoint_from_item_cases item) as Hitem.
  destruct (is_dict item) eqn:Hd.
  - destruct item; try discriminate Hd. rewrite Hitem. cbn [rbind andb].
    destruct (forallb is_dict items).
    + destruct IH as (eps & -> & Hlen). eexists. split; [reflexivity|].
      simpl. rewrite Hlen. reflexivity.
    + destruct IH as (msg & ->). exists msg. reflexivity.
  - assert (Hr : exists msg,
               endpoint_from_item py_repr item = Raise (AttributeError msg))
      by (destruct item; try discriminate Hd; exact Hitem).
    destruct Hr as [msg ->]. exists msg. reflexivity.
Qed.

Lemma blueprint_of_objects (entries : list (string * json))
    (objs : list (list (string * json))) (pre : list json) :
  py_get (JDict entries) "endpoints" (JList []) = Ok (JList (map JDict objs)) ->
  py_get (JDict entries) "prerequisites" (JList []) = Ok (JList pre) ->
  blueprint_from_dict py_repr (JDict entries)
  = Ok (mkBlueprint
          (py_or (match assoc "name" entries with Some x => x | None => JNull end)
                 (JStr DEFAULT_BLUEPRINT_NAME))
          (py_or (match assoc "summary" entries with Some x => x | None => JNull end)
                 (JStr "Generated MCP server"))
          (map (endpoint_of_entries py_repr) objs)
          (map (py_str py_repr) pre)).
Proof.
  intros He Hp. unfold blueprint_from_dict.
  cbn [py_get rbind] in *. injection He as He. injection Hp as Hp.
  rewrite He, Hp. cbn [py_iter rbind]. rewrite mapM_endpoints_dicts.
  reflexivity.
Qed.

(** X8. For an object whose [endpoints] (default: the empty list) is a list
    of objects and whose [prerequisites] (default: the empty list) is a
    list, [blueprint_from_dict] succeeds: the endpoints are those of the
    objects in order, name and summary fall back to the defaults when
    missing or falsy, and each prerequisite is turned into a string. *)
Theorem blueprint_from_dict_objects (entries : list (string * json))
    (objs : list (list (string * json))) (pre : list json) :
  py_get (JDict entries) "endpoints" (JList []) = Ok (JList (map JDict objs)) ->
  py_get (JDict entries) "prerequisites" (JList []) = Ok (JList pre) ->
  blueprint_from_dict py_repr (JDict entries)
  = Ok (mkBlueprint
          (py_or (match assoc "name" entries with Some x => x | None => JNull end)
                 (JStr DEFAULT_BLUEPRINT_NAME))
          (py_or (match assoc "summary" entries with Some x => x | None => JNull end)
                 (JStr "Generated MCP server"))
          (map (endpoint_of_entries py_repr) objs)
          (map (py_str py_repr) pre)).
Proof. exact (blueprint_of_objects entries objs pre). Qed.

(** X9. [blueprint_from_dict] succeeds exactly when the value is an object,
    its [endpoints] (default: the empty list) can be iterated and yields
    only objects, and its [prerequisites] (default: the empty list) can be
    iterated; otherwise it raises. *)
Theorem blueprint_from_dict_succeeds_iff (data : json) :
  (exists bp, blueprint_from_dict py_repr data = Ok bp)
  <-> exists entries items pre,
        data = JDict entries
        /\ py_iter (match assoc "endpoints" entries with
                    | Some v => v | None => JList [] end) = Ok items
        /\ forallb is_dict items = true
        /\ py_iter (match assoc "prerequisites" entries with
                    | Some v => v | None => JList [] end) = Ok pre.
Proof.
  split.
  - intros [bp H]. destruct data as [| | | | |items|entries]; try discriminate H.
    unfold blueprint_from_dict in H. cbn [py_get rbind] in H.
    destruct (py_iter (match assoc "endpoints" entries with
                       | Some v => v | None => JList [] end)) as [items|e] eqn:Ei;
      [|discriminate H].
    cbn [rbind] in H. pose proof (mapM_endpoints_cases items) as Hm.
    destruct (forallb is_dict items) eqn:Hd.
    + destruct Hm as (eps & Hm & _). rewrite Hm in H. cbn [rbind] in H.
      destruct (py_iter (match assoc "prerequisites" entries with
                         | Some v => v | None => JList [] end)) as [pre|e] eqn:Ep;
        [|discriminate H].
      exists entries, items, pre. auto.
    + destruct Hm as (msg & Hm). rewrite Hm in H. discriminate H.
  - intros (entries & items & pre & -> & Hi & Hd & Hp).
    unfold blueprint_from_dict. cbn [py_get rbind]. rewrite Hi. cbn [rbind].
    pose proof (mapM_endpoints_cases items) as Hm. rewrite Hd in Hm.
    destruct Hm as (eps & -> & _). cbn [rbind]. rewrite Hp. cbn [rbind].
    eexists. reflexivity.
Qed.

(** X10. Reading back the [blueprint] entry of the rendering context with
    [blueprint_from_dict] restores the endpoints and the prerequisites of
    the blueprint, and its name and summary unless they are falsy (then the
    defaults take their place): for a blueprint with a truthy name and
    summary the round trip is the identity. *)
Theorem blueprint_context_round_trip (b : Blueprint) :
  (inner <- py_getitem (_context_from_blueprint b) "blueprint" ;;
   blueprint_from_dict py_repr inner)
  = Ok (mkBlueprint (py_or (bp_name b) (JStr DEFAULT_BLUEPRINT_NAME))
          (py_or (summary b) (JStr "Generated MCP server"))
          (endpoints b) (prerequisites b))
  /\ (truthy (bp_name b) = true -> truthy (summary b) = true ->
      (inner <- py_getitem (_context_from_blueprint b) "blueprint" ;;
       blueprint_from_dict py_repr inner)
      = Ok b).
Proof.
  assert (Hgen : (inner <- py_getitem (_context_from_blueprint b) "blueprint" ;;
                  blueprint_from_dict py_repr inner)
                 = Ok (mkBlueprint (py_or (bp_name b) (JStr DEFAULT_BLUEPRINT_NAME))
                         (py_or (summary b) (JStr "Generated MCP server"))
                         (endpoints b) (prerequisites b))).
  { unfold _context_from_blueprint.
    cbn [py_getitem assoc String.eqb Ascii.eqb Bool.eqb rbind].
    unfold blueprint_from_dict.
    cbn [py_get assoc String.eqb Ascii.eqb Bool.eqb rbind py_iter].
    assert (He : mapM (endpoint_from_item py_repr)
                   (map endpoint_context (endpoints b)) = Ok (endpoints b)).
    { induction (endpoints b) as [|[n m p d] eps IH]; [reflexivity|].
      cbn [map mapM]. rewrite IH. reflexivity. }
    rewrite He. cbn [rbind].
    assert (Hp : map (py_str py_repr) (map JStr (prerequisites b)) = prerequisites b).
    { induction (prerequisites b) as [|s ps IH]; [reflexivity|].
      simpl. rewrite IH. reflexivity. }
    rewrite Hp. reflexivity. }
  split; [exact Hgen|]. intros Hn Hs. rewrite Hgen.
  unfold py_or. rewrite Hn, Hs. destruct b; reflexivity.
Qed.

End DecodingMore.

Section RemoteStrategy.

Variable py_repr : json -> string.
Variable json_loads : string -> result json.
Variable responses_create : string -> string -> result string.

Local Abbreviation build :=
  (build_blueprint py_repr json_loads responses_create).

(** X6. With the remote client as primary strategy, when the service
    answers a text that decodes to an object whose [endpoints] is a
    non-empty list of objects (and whose [prerequisites], if present, is a
    list), [build_blueprint] returns exactly the blueprint parsed from the
    answer, one endpoint per object; the heuristic is not consulted and no
    health check is added. *)
Theorem remote_blueprint_returned (api_key model : string)
    (documents : list string) (title : option string) (text : string)
    (entries o : list (string * json)) (objs : list (list (string * json)))
    (pre : list json) :
  responses_create model (_build_prompt documents title) = Ok text ->
  json_loads text = Ok (JDict entries) ->
  py_get (JDict entries) "endpoints" (JList []) = Ok (JList (map JDict (o :: objs))) ->
  py_get (JDict entries) "prerequisites" (JList []) = Ok (JList pre) ->
  build {| llm_client := OpenAILLMClient api_key model |} documents title
  = blueprint_from_dict py_repr (JDict entries)
  /\ exists blueprint,
       blueprint_from_dict py_repr (JDict entries) = Ok blueprint
       /\ length (endpoints blueprint) = S (length objs).
Proof.
  intros Hs Hj He Hp.
  pose proof (blueprint_of_objects py_repr entries (o :: objs) pre He Hp) as Hb.
  split.
  - rewrite build_blueprint_unfold. cbn [llm_client generate_blueprint].
    rewrite Hs. cbn [rbind]. unfold _parse_response. rewrite Hj, Hb. reflexivity.
  - eexists. split; [exact Hb|]. cbn [endpoints]. rewrite length_map. reflexivity.
Qed.

(** X7. With the remote client as primary strategy, [build_blueprint]
    returns the repaired heuristic blueprint of the prompt whenever the
    service call raises, the decoder raises (whatever the exception), or the
    answer decodes to something that is not an object. *)
Theorem remote_failures_fall_back (api_key model : string)
    (documents : list string) (title : option string) :
  let prompt := _build_prompt documents title in
  (exists e, responses_create model prompt = Raise e)
  \/ (exists text e, responses_create model prompt = Ok text
                     /\ json_loads text = Raise e)
  \/ (exists text data, responses_create model prompt = Ok text
                        /\ json_loads text = Ok data
                        /\ is_dict data = false) ->
  build {| llm_client := OpenAILLMClient api_key model |} documents title
  = Ok (repaired (heuristic_blueprint prompt)).
Proof.
  intros prompt H. subst prompt. rewrite build_blueprint_unfold.
  cbn [llm_client generate_blueprint].
  destruct H as [[e Hs]|[(text & e & Hs & Hj)|(text & data & Hs & Hj & Hd)]];
    rewrite Hs; cbn [rbind]; [reflexivity| |].
  - unfold _parse_response. rewrite Hj. destruct e; reflexivity.
  - unfold _parse_response. rewrite Hj.
    destruct data; try discriminate Hd; reflexivity.
Qed.

End RemoteStrategy.

Section ScopeAndLinks.

Variable urlparse_netloc : string -> result string.
Variable re_fullmatch : string -> string -> result bool.
Variable soup_title_string : string -> option string.
Variable soup_text : string -> string.
Variable soup_hrefs : string -> list string.
Variable unescape : string -> string.
Variable urljoin : string -> string -> result string.

Local Abbreviation allowed := (_url_allowed urlparse_netloc re_fullmatch).
Local Abbreviation parse_html :=
  (_parse_html urlparse_netloc re_fullmatch soup_title_string soup_text
     soup_hrefs unescape urljoin).
Local Abbreviation links_of :=
  (collect_links urlparse_netloc re_fullmatch urljoin).

Lemma any_fullmatch_spec (patterns : list string) (url : string) :
  (forall p, p ∈ patterns -> exists b, re_fullmatch p url = Ok b) ->
  exists b, any_fullmatch re_fullmatch patterns url = Ok b
            /\ (b = true <-> exists p, p ∈ patterns /\ re_fullmatch p url = Ok true).
Proof.
  induction patterns as [|p0 rest IH]; intros Hdef.
  - exists false. split; [reflexivity|]. split; [discriminate|].
    intros (p & Hp & _). inversion Hp.
  - destruct (Hdef p0) as [b0 Hb0]; [left|]. simpl. rewrite Hb0. simpl.
    destruct b0.
    + exists true. split; [reflexivity|]. split; [|reflexivity].
      intros _. exists p0. split; [left | exact Hb0].
    + destruct IH as (b & Hb & Hiff); [intros p Hp; apply Hdef; right; exact Hp|].
      exists b. split; [exact Hb|]. rewrite Hiff. split.
      * intros (p & Hp & Hm). exists p. split; [right|]; assumption.
      * intros (p & Hp & Hm). apply elem_of_cons in Hp. destruct Hp as [->|Hp].
        -- congruence.
        -- exists p. auto.
Qed.

(** X11. When the URL parses and every configured pattern is a valid
    expression, the scope check returns a boolean, and it returns True
    exactly when the network location is that of the start URL, the allow
    patterns are empty or one of them matches the whole URL, and no deny
    pattern matches it. *)
Theorem url_allowed_iff (self : DocumentationCrawler) (url netloc : string) :
  urlparse_netloc url = Ok netloc ->
  (forall p, p ∈ allow_patterns (config self) ++ deny_patterns (config self) ->
             exists b, re_fullmatch p url = Ok b) ->
  exists b, allowed self url = Ok b
    /\ (b = true <->
        netloc = allowed_netloc self
        /\ (allow_patterns (config self) = []
            \/ exists p, p ∈ allow_patterns (config self)
                         /\ re_fullmatch p url = Ok true)
        /\ ~ exists p, p ∈ deny_patterns (config self)
                       /\ re_fullmatch p url = Ok true).
Proof.
  intros Hn Hvalid.
  destruct (any_fullmatch_spec (allow_patterns (config self)) url)
    as (ba & Ha & Hia).
  { intros p Hp. apply Hvalid. apply elem_of_app. left. exact Hp. }
  destruct (any_fullmatch_spec (deny_patterns (config self)) url)
    as (bd & Hd & Hid).
  { intros p Hp. apply Hvalid. apply elem_of_app. right. exact Hp. }
  unfold _url_allowed. rewrite Hn. cbn [rbind].
  destruct (String.eqb netloc (allowed_netloc self)) eqn:Heq; cbn [negb].
  - apply String.eqb_eq in Heq. rewrite Hd.
    destruct (allow_patterns (config self)) as [|p0 rest] eqn:Hpat.
    + cbn [rbind negb]. destruct bd; eexists; (split; [reflexivity|]).
      * split; [discriminate|]. intros (_ & _ & Hno). exfalso. apply Hno, Hid. reflexivity.
      * split; [|reflexivity]. intros _. split; [exact Heq|].
        split; [left; reflexivity|]. intros H. apply Hid in H. discriminate.
    + rewrite Ha. cbn [rbind]. destruct ba; cbn [negb].
      * destruct bd; eexists; (split; [reflexivity|]).
        -- split; [discriminate|]. intros (_ & _ & Hno). exfalso. apply Hno, Hid. reflexivity.
        -- split; [|reflexivity]. intros _. split; [exact Heq|].
           split; [right; apply Hia; reflexivity|].
           intros H. apply Hid in H. discriminate.
      * eexists. split; [reflexivity|]. split; [discriminate|].
        intros (_ & [Hnil|Hm] & _); [discriminate|]. apply Hia in Hm. discriminate.
  - eexists. split; [reflexivity|]. split; [discriminate|].
    intros (Hnl & _). apply String.eqb_neq in Heq. contradiction.
Qed.

Lemma collect_links_spec (self : DocumentationCrawler) (url : string)
    (hrefs : list string) :
  forall (acc links : gset string),
    links_of self url hrefs acc = Ok links ->
    forall l, l ∈ links <->
      l ∈ acc
      \/ exists href, href ∈ hrefs /\ urljoin url href = Ok l
                      /\ String.prefix "http" l = true
                      /\ allowed self l = Ok true.
Proof.
  induction hrefs as [|href rest IH]; intros acc links H l.
  - simpl in H. injection H as <-. split; [auto|].
    intros [Hl|(h & Hh & _)]; [exact Hl | inversion Hh].
  - cbn [collect_links] in H.
    destruct (urljoin url href) as [absolute|e] eqn:Hj; [|discriminate H].
    cbn [rbind] in H.
    destruct (String.prefix "http" absolute) eqn:Hp.
    + destruct (allowed self absolute) as [keep|e] eqn:Ha; [|discriminate H].
      cbn [rbind] in H. rewrite (IH _ _ H l). destruct keep.
      * rewrite elem_of_union, elem_of_singleton. split.
        -- intros [[->|Hl]|(h & Hh & Hr)].
           ++ right. exists href. split; [left|]. auto.
           ++ left. exact Hl.
           ++ right. exists h. split; [right|]; tauto.
        -- intros [Hl|(h & Hh & Hhj & Hhp & Hha)]; [left; right; exact Hl|].
           apply elem_of_cons in Hh. destruct Hh as [->|Hh].
           ++ left. left. congruence.
           ++ right. exists h. auto.
      * split.
        -- intros [Hl|(h & Hh & Hr)]; [left; exact Hl|].
           right. exists h. split; [right|]; tauto.
        -- intros [Hl|(h & Hh & Hhj & Hhp & Hha)]; [left; exact Hl|].
           apply elem_of_cons in Hh. destruct Hh as [->|Hh].
           ++ rewrite Hj in Hhj. injection Hhj as ->. congruence.
           ++ right. exists h. auto.
    + cbn [rbind] in H. rewrite (IH _ _ H l). split.
      * intros [Hl|(h & Hh & Hr)]; [left; exact Hl|].
        right. exists h. split; [right|]; tauto.
      * intros [Hl|(h & Hh & Hhj & Hhp & Hha)]; [left; exact Hl|].
        apply elem_of_cons in Hh. destruct Hh as [->|Hh].
        -- rewrite Hj in Hhj. injection Hhj as ->. congruence.
        -- right. exists h. auto.
Qed.

Lemma parse_html_result (self : DocumentationCrawler) (page html : string)
    (document : Document) (links : gset string) :
  parse_html self page html = Ok (document, links) ->
  url document = page
  /\ content document = unescape (soup_text html)
  /\ content_type document = "text/html"
  /\ metadata document = {[ "source" := page ]}
  /\ forall l, l ∈ links <->
       exists href, href ∈ soup_hrefs html /\ urljoin page href = Ok l
                    /\ String.prefix "http" l = true
                    /\ allowed self l = Ok true.
Proof.
  unfold _parse_html. intros H.
  destruct (links_of self page (soup_hrefs html) ∅) as [ls|e] eqn:Hl;
    [|discriminate H].
  cbn [rbind] in H. injection H as <- <-. repeat split; try reflexivity.
  - intros Hin. apply (collect_links_spec _ _ _ _ _ Hl) in Hin.
    destruct Hin as [Hin|Hin]; [|exact Hin].
    exfalso. exact (not_elem_of_empty l Hin).
  - intros Hin. apply (collect_links_spec _ _ _ _ _ Hl). right. exact Hin.
Qed.

(** X12. When [_parse_html] returns, its document carries the page URL,
    the unescaped text, the type "text/html" and the source in its metadata,
    and its links are exactly the absolute forms of the anchors that start
    with "http" and pass the scope check. *)
Theorem parse_html_spec (self : DocumentationCrawler) (page html : string)
    (document : Document) (links : gset string) :
  parse_html self page html = Ok (document, links) ->
  url document = page
  /\ content document = unescape (soup_text html)
  /\ content_type document = "text/html"
  /\ metadata document = {[ "source" := page ]}
  /\ forall l, l ∈ links <->
       exists href, href ∈ soup_hrefs html /\ urljoin page href = Ok l
                    /\ String.prefix "http" l = true
                    /\ allowed self l = Ok true.
Proof. exact (parse_html_result self page html document links). Qed.

End ScopeAndLinks.

Section CrawlerMore.

Variable urlparse_netloc : string -> result string.
Variable re_fullmatch : string -> string -> result bool.
Variable session_get : list string -> string -> result response.
Variable soup_title_string : string -> option string.
Variable soup_text : string -> string.
Variable soup_hrefs : string -> list string.
Variable unescape : string -> string.
Variable urljoin : string -> string -> result string.

Local Abbreviation allowed := (_url_allowed urlparse_netloc re_fullmatch).
Local Abbreviation parse_html :=
  (_parse_html urlparse_netloc re_fullmatch soup_title_string soup_text
     soup_hrefs unescape urljoin).
Local Abbreviation links_of :=
  (collect_links urlparse_netloc re_fullmatch urljoin).
Local Abbreviation step :=
  (crawl_step urlparse_netloc re_fullmatch session_get soup_title_string
     soup_text soup_hrefs unescape urljoin).
Local Abbreviation run_for :=
  (crawl_run urlparse_netloc re_fullmatch session_get soup_title_string
     soup_text soup_hrefs unescape urljoin).
Local Abbreviation crawl_of :=
  (crawl urlparse_netloc re_fullmatch session_get soup_title_string
     soup_text soup_hrefs unescape urljoin).
Local Abbreviation loop_of :=
  (crawl_loop urlparse_netloc re_fullmatch session_get soup_title_string
     soup_text soup_hrefs unescape urljoin).
Local Abbreviation inv := (crawl_invariant urlparse_netloc re_fullmatch).

(** One iteration, case by case. *)
Lemma crawl_step_cases (self : DocumentationCrawler) (st st' : crawl_state) :
  step self st = Continue st' \/ (exists e, step self st = Abort e st') ->
  exists (url : string) (q' : list string),
    q st = url :: q'
    /\ (Z.of_nat (size (visited st)) < max_pages (config self))%Z
    /\ ((url ∈ visited st
         /\ st' = mkState (visited st) (docs st) q' (requested st))
        \/ ((url ∉ visited st)
            /\ ((allowed self url <> Ok true
                 /\ st' = mkState ({[url]} ∪ visited st) (docs st) q' (requested st))
                \/ (allowed self url = Ok true
                    /\ (st' = mkState ({[url]} ∪ visited st) (docs st) q'
                                (requested st ++ [url])
                        \/ (exists html document discovered,
                              parse_html self url html = Ok (document, discovered)
                              /\ st' = mkState ({[url]} ∪ visited st)
                                         (docs st ++ [document])
                                         (q' ++ filter (fun link => link ∉ {[url]} ∪ visited st)
                                                  (elements discovered))
                                         (requested st ++ [url]))
                        \/ (exists body,
                              st' = mkState ({[url]} ∪ visited st)
                                      (docs st ++ [mkDocument url body "application/json" ∅ None])
                                      q' (requested st ++ [url]))))))).
Proof.
  unfold crawl_step. intros H.
  destruct (q st) as [|url q'] eqn:Hq; [destruct H as [H|[e H]]; discriminate|].
  exists url, q'. split; [reflexivity|].
  destruct (Z.of_nat (size (visited st)) <? max_pages (config self))%Z eqn:Hcap;
    simpl in H; [|destruct H as [H|[e H]]; discriminate].
  apply Z.ltb_lt in Hcap. split; [exact Hcap|].
  destruct (decide (url ∈ visited st)) as [Hin|Hnin].
  - left. destruct H as [H|[e H]]; [|discriminate].
    injection H as <-. auto.
  - right. split; [exact Hnin|].
    destruct (allowed self url) as [[|]|e0] eqn:Hallowed.
    + right. split; [reflexivity|].
      destruct (session_get (requested st) url) as [resp|e1] eqn:Hget.
      * destruct (String.prefix "text/html" _) eqn:Hhtml.
        -- destruct (parse_html self url (text resp)) as [[document discovered]|e2]
             eqn:Hparse.
           ++ right. left. destruct H as [H|[e' H]]; simplify_eq. eauto.
           ++ left. destruct H as [H|[e' H]]; simplify_eq. reflexivity.
        -- destruct (String.eqb _ "application/json") eqn:Hjson.
           ++ right. right. apply String.eqb_eq in Hjson.
              destruct H as [H|[e' H]]; simplify_eq. rewrite Hjson. eauto.
           ++ left. destruct H as [H|[e' H]]; simplify_eq. reflexivity.
      * left. destruct e1; destruct H as [H|[e' H]]; simplify_eq; reflexivity.
    + left. split; [discriminate|].
      destruct H as [H|[e' H]]; simplify_eq. reflexivity.
    + left. split; [discriminate|].
      destruct H as [H|[e' H]]; simplify_eq. reflexivity.
Qed.

Lemma initial_invariant (self : DocumentationCrawler) : inv self (initial self).
Proof.
  unfold crawl_invariant, initial. cbn.
  split; [apply NoDup_nil_2|].
  split; [intros u Hu; inversion Hu|].
  split; [lia|].
  split; [apply sublist_nil_l|].
  split; [apply Forall_nil_2|].
  split.
  - intros u Hu. apply list_elem_of_singleton in Hu. left. exact Hu.
  - left. split; [reflexivity|]. right. split; reflexivity.
Qed.

Lemma crawl_step_invariant (self : DocumentationCrawler) (st st' : crawl_state) :
  inv self st ->
  step self st = Continue st' \/ (exists e, step self st = Abort e st') ->
  inv self st'.
Proof.
  intros (Hnd & Hsub & Hlen & Hdocs & Hkind & Hq & Hfirst) Hs.
  destruct (crawl_step_cases self st st' Hs) as (u0 & q' & Hqeq & Hcap & Hcases).
  assert (Hq' : forall u, u ∈ q' ->
            u = start_url self
            \/ (allowed self u = Ok true /\ String.prefix "http" u = true)).
  { intros u Hu. apply Hq. rewrite Hqeq. right. exact Hu. }
  assert (Hfirst_same :
            u0 ∉ visited st ->
            (docs st = [] /\ q' = [])
            \/ exists d ds, docs st = d :: ds /\ url d = start_url self).
  { intros Hnin. destruct Hfirst as [[Hd [Hqn|[Hqs Hv]]]|Hd].
    - rewrite Hqeq in Hqn. discriminate.
    - rewrite Hqeq in Hqs. injection Hqs as _ ->. left. auto.
    - right. exact Hd. }
  assert (Hfirst_add : forall doc,
            url doc = u0 ->
            exists d ds, docs st ++ [doc] = d :: ds /\ url d = start_url self).
  { intros doc Hdoc. destruct Hfirst as [[Hd [Hqn|[Hqs Hv]]]|(d & ds & Hd & Hu)].
    - rewrite Hqeq in Hqn. discriminate.
    - rewrite Hqeq in Hqs. injection Hqs as -> _. rewrite Hd.
      exists doc, []. auto.
    - rewrite Hd. exists d, (ds ++ [doc]). auto. }
  destruct Hcases as [[Hin ->]|[Hnin Hcases]].
  - unfold crawl_invariant. cbn.
    repeat split; try assumption.
    destruct Hfirst as [[Hd [Hqn|[Hqs Hv]]]|Hd].
    + rewrite Hqeq in Hqn. discriminate.
    + rewrite Hv in Hin. exfalso. exact (not_elem_of_empty u0 Hin).
    + right. exact Hd.
  - assert (Hfresh : u0 ∉ requested st) by (intros H; apply Hnin, Hsub, H).
    assert (Hsize : size ({[u0]} ∪ visited st) = S (size (visited st))).
    { rewrite size_union by (apply disjoint_singleton_l; exact Hnin).
      rewrite size_singleton. reflexivity. }
    assert (Hnd' : NoDup (requested st ++ [u0])).
    { apply NoDup_app. split; [exact Hnd|]. split; [|apply NoDup_singleton].
      intros u Hu Hu'. apply list_elem_of_singleton in Hu'. subst. auto. }
    assert (Hsub' : forall u, u ∈ requested st ++ [u0] -> u ∈ {[u0]} ∪ visited st).
    { intros u Hu. apply elem_of_app in Hu. destruct Hu as [Hu|Hu].
      - apply elem_of_union_r, Hsub, Hu.
      - apply list_elem_of_singleton in Hu. subst.
        apply elem_of_union_l, elem_of_singleton. reflexivity. }
    assert (Hlen' : (length (requested st ++ [u0]) <= size ({[u0]} ∪ visited st))%nat).
    { rewrite length_app, Hsize. simpl. lia. }
    destruct Hcases as [[Hno ->]|[Hok [->|[(html & document & discovered & Hp & ->)
                                          |(body & ->)]]]];
      unfold crawl_invariant; cbn.
    + repeat split; try assumption.
      * intros u Hu. apply elem_of_union_r, Hsub, Hu.
      * rewrite Hsize. lia.
      * destruct (Hfirst_same Hnin) as [[Hd Hqn]|Hd]; [left | right]; auto.
    + repeat split; try assumption.
      * apply sublist_inserts_r. exact Hdocs.
      * destruct (Hfirst_same Hnin) as [[Hd Hqn]|Hd]; [left | right]; auto.
    + destruct (parse_html_result urlparse_netloc re_fullmatch soup_title_string
                  soup_text soup_hrefs unescape urljoin self u0 html document
                  discovered Hp)
        as (Hurl & _ & Hct & _ & Hlinks).
      repeat split; try assumption.
      * rewrite map_app. apply sublist_app; [exact Hdocs|].
        simpl. rewrite Hurl. reflexivity.
      * apply Forall_app. split; [exact Hkind|].
        apply Forall_singleton. left. exact Hct.
      * intros u Hu. apply elem_of_app in Hu. destruct Hu as [Hu|Hu]; [auto|].
        apply list_elem_of_filter in Hu. destruct Hu as [_ Hu].
        apply elem_of_elements, Hlinks in Hu.
        destruct Hu as (href & _ & _ & Hpre & Hall). right. auto.
      * right. apply Hfirst_add. exact Hurl.
    + repeat split; try assumption.
      * rewrite map_app. apply sublist_app; [exact Hdocs|]. reflexivity.
      * apply Forall_app. split; [exact Hkind|].
        apply Forall_singleton. right. reflexivity.
      * right. apply Hfirst_add. reflexivity.
Qed.

Lemma crawl_run_invariant (self : DocumentationCrawler) (n : nat) :
  inv self (run_for self n (initial self)).
Proof.
  apply (crawl_run_ind urlparse_netloc re_fullmatch session_get soup_title_string
           soup_text soup_hrefs unescape urljoin (inv self)).
  - intros st st' HP Hs. exact (crawl_step_invariant self st st' HP Hs).
  - apply initial_invariant.
Qed.

(** When the loop returns, its documents are those of a state of the run. *)
Lemma crawl_loop_final (self : DocumentationCrawler) (fuel : nat) :
  forall (st : crawl_state) (corpus : Corpus),
    loop_of self fuel st = Some (Ok corpus) ->
    exists n, documents corpus = docs (run_for self n st).
Proof.
  induction fuel as [|fuel IH]; intros st corpus H; [discriminate|].
  simpl in H. destruct (step self st) as [|st'|e st'] eqn:Hs.
  - injection H as <-. exists 0%nat. reflexivity.
  - destruct (IH st' corpus H) as [n Hn]. exists (S n). simpl. rewrite Hs. exact Hn.
  - discriminate.
Qed.

Lemma crawl_run_within_cap (self : DocumentationCrawler) (n : nat) :
  within_cap self (run_for self n (initial self)).
Proof.
  apply (crawl_run_ind urlparse_netloc re_fullmatch session_get soup_title_string
           soup_text soup_hrefs unescape urljoin (within_cap self)).
  - intros st st' HP Hs.
    exact (crawl_step_within_cap urlparse_netloc re_fullmatch session_get
             soup_title_string soup_text soup_hrefs unescape urljoin
             self st st' HP Hs).
  - unfold within_cap, initial. cbn [visited]. rewrite size_empty. lia.
Qed.

(** X13. At every point of a crawl no URL has been requested twice, every
    requested URL is marked visited, and the number of requests is at most
    [max 0 max_pages]. *)
Theorem requests_never_repeat (self : DocumentationCrawler) (n : nat) :
  let st := run_for self n (initial self) in
  NoDup (requested st)
  /\ (forall u, u ∈ requested st -> u ∈ visited st)
  /\ (Z.of_nat (length (requested st)) <= Z.max 0 (max_pages (config self)))%Z.
Proof.
  intros st. subst st.
  destruct (crawl_run_invariant self n) as (Hnd & Hsub & Hlen & _).
  pose proof (crawl_run_within_cap self n) as Hcap. unfold within_cap in Hcap.
  split; [exact Hnd|]. split; [exact Hsub|]. lia.
Qed.

(** X14. At every point of a crawl each queued URL is the start URL or a
    link that starts with "http" and passed the scope check when it was
    discovered. *)
Theorem queued_urls_in_scope (self : DocumentationCrawler) (n : nat) (u : string) :
  u ∈ q (run_for self n (initial self)) ->
  u = start_url self
  \/ (allowed self u = Ok true /\ String.prefix "http" u = true).
Proof.
  destruct (crawl_run_invariant self n) as (_ & _ & _ & _ & _ & Hq & _).
  apply Hq.
Qed.

(** X15. A corpus returned by [crawl] has at most [max 0 max_pages]
    documents, with pairwise different URLs; each document is of type
    "text/html" or "application/json" and its URL passes the scope check and
    has the network location of the start URL; the first document, if there
    is one, is that of the start URL. *)
Theorem corpus_documents (self : DocumentationCrawler) (fuel : nat) (corpus : Corpus) :
  crawl_of self fuel = Some (Ok corpus) ->
  (Z.of_nat (length (documents corpus)) <= Z.max 0 (max_pages (config self)))%Z
  /\ NoDup (map url (documents corpus))
  /\ (forall d, d ∈ documents corpus ->
        (content_type d = "text/html" \/ content_type d = "application/json")
        /\ allowed self (url d) = Ok true
        /\ urlparse_netloc (url d) = Ok (allowed_netloc self))
  /\ (forall d ds, documents corpus = d :: ds -> url d = start_url self).
Proof.
  unfold crawl. intros H.
  destruct (crawl_loop_final self fuel _ _ H) as [n ->].
  destruct (crawl_run_invariant self n)
    as (Hnd & _ & Hlen & Hdocs & Hkind & _ & Hfirst).
  pose proof (crawl_run_within_cap self n) as Hcap. unfold within_cap in Hcap.
  pose proof (sublist_length _ _ Hdocs) as Hl. rewrite length_map in Hl.
  split; [lia|]. split; [eapply sublist_NoDup; eassumption|]. split.
  - intros d Hd. split.
    + rewrite Forall_forall in Hkind. apply Hkind. exact Hd.
    + assert (Hreq : url d ∈ requested (run_for self n (initial self))).
      { apply (elem_of_submseteq (map url (docs (run_for self n (initial self))))).
        - apply list_elem_of_fmap. exists d. auto.
        - apply sublist_submseteq. exact Hdocs. }
      pose proof (crawl_run_requests_allowed urlparse_netloc re_fullmatch
                    session_get soup_title_string soup_text soup_hrefs unescape
                    urljoin self n (url d) Hreq) as Hok.
      split; [exact Hok|].
      exact (url_allowed_netloc urlparse_netloc re_fullmatch self (url d) Hok).
  - intros d ds Hd. destruct Hfirst as [[He _]|(d0 & ds0 & He & Hu)].
    + rewrite He in Hd. discriminate.
    + rewrite He in Hd. injection Hd as <- _. exact Hu.
Qed.

Lemma crawl_finds_nothing (self : DocumentationCrawler) (k : nat) :
  (max_pages (config self) <= 0)%Z
  \/ allowed self (start_url self) = Ok false
  \/ (allowed self (start_url self) = Ok true
      /\ exists msg, session_get [] (start_url self) = Raise (RequestException msg)) ->
  crawl_of self (S (S k)) = Some (Ok (mkCorpus [])).
Proof.
  intros H. unfold crawl, initial.
  cbn [crawl_loop]. unfold crawl_step at 1. cbn [q visited docs requested].
  rewrite size_empty. change (Z.of_nat 0) with 0%Z.
  destruct (0 <? max_pages (config self))%Z eqn:Hcap; cbn [negb].
  2: { reflexivity. }
  apply Z.ltb_lt in Hcap.
  destruct (decide (start_url self ∈ (∅ : gset string))) as [Hin|_].
  { exfalso. exact (not_elem_of_empty _ Hin). }
  destruct H as [H|[H|[H [msg Hget]]]]; [lia| |]; rewrite H.
  - reflexivity.
  - rewrite Hget. reflexivity.
Qed.

(** X16. [crawl] returns an empty corpus, within two iterations of the
    loop, when [max_pages] is not positive, when the scope check rejects the
    start URL, or when the request for the start URL fails with a
    [RequestException]. *)
Theorem crawl_empty_corpus (self : DocumentationCrawler) (k : nat) :
  (max_pages (config self) <= 0)%Z
  \/ allowed self (start_url self) = Ok false
  \/ (allowed self (start_url self) = Ok true
      /\ exists msg, session_get [] (start_url self) = Raise (RequestException msg)) ->
  crawl_of self (S (S k)) = Some (Ok (mkCorpus [])).
Proof. exact (crawl_finds_nothing self k). Qed.

End CrawlerMore.

Section GeneratorProperties.

Variable py_repr : json -> string.
Variable json_loads : string -> result json.
Variable responses_create : string -> string -> result string.
Variable urlparse_netloc : string -> result string.
Variable re_fullmatch : string -> string -> result bool.
Variable session_get : list string -> string -> result response.
Variable soup_title_string : string -> option string.
Variable soup_text : string -> string.
Variable soup_hrefs : string -> list string.
Variable unescape : string -> string.
Variable urljoin : string -> string -> result string.
Variable ScaffoldManager : Type.
Variable default_manager : ScaffoldManager.
Variable render_project : ScaffoldManager -> Blueprint -> string -> result string.

Local Abbreviation generate_project :=
  (generate py_repr json_loads responses_create urlparse_netloc re_fullmatch
     session_get soup_title_string soup_text soup_hrefs unescape urljoin
     ScaffoldManager render_project).
Local Abbreviation crawl_of :=
  (crawl urlparse_netloc re_fullmatch session_get soup_title_string
     soup_text soup_hrefs unescape urljoin).
Local Abbreviation build :=
  (build_blueprint py_repr json_loads responses_create).

(** X17. Whatever [generate] returns, either the crawler could not be built
    or the crawl raised, and that exception is the outcome, or the outcome
    is the renderer's for a blueprint with at least one endpoint: the
    blueprint stage itself never fails. *)
Theorem generate_renders_endpoints (self : ProjectGenerator ScaffoldManager)
    (url output_dir : string) (max_pages : Z) (fuel : nat) (outcome : result string) :
  generate_project self url output_dir max_pages fuel = Some outcome ->
  let cfg := mkCrawlConfig max_pages 10 "mcp-builder/0.1" [".*"] [] in
  (exists e, outcome = Raise e
             /\ (DocumentationCrawler_init urlparse_netloc url (Some cfg) = Raise e
                 \/ exists crawler,
                      DocumentationCrawler_init urlparse_netloc url (Some cfg)
                      = Ok crawler
                      /\ crawl_of crawler fuel = Some (Raise e)))
  \/ exists blueprint,
       endpoints blueprint <> []
       /\ outcome = render_project (scaffold_manager ScaffoldManager self)
                      blueprint output_dir.
Proof.
  intros H cfg. subst cfg. unfold generate in H.
  destruct (DocumentationCrawler_init urlparse_netloc url _) as [crawler|e] eqn:Hi.
  - destruct (crawl_of crawler fuel) as [[corpus|e]|] eqn:Hc; [| |discriminate H].
    + right. rewrite build_blueprint_unfold in H. cbn [rbind] in H.
      injection H as <-. eexists. split; [apply repaired_nonempty | reflexivity].
    + left. injection H as <-. exists e. split; [reflexivity|]. right. eauto.
  - left. injection H as <-. exists e. auto.
Qed.

(** X18. With the default orchestrator, when the crawl finds nothing
    ([max_pages] not positive, start URL out of scope or its request
    failing), [generate] renders the default blueprint whose only endpoint
    is the health check. *)
Theorem generate_without_documents (manager : option ScaffoldManager)
    (url output_dir netloc : string) (max_pages : Z) (k : nat) :
  urlparse_netloc url = Ok netloc ->
  let crawler :=
    mkCrawler url (mkCrawlConfig max_pages 10 "mcp-builder/0.1" [".*"] []) netloc in
  (max_pages <= 0)%Z
  \/ _url_allowed urlparse_netloc re_fullmatch crawler url = Ok false
  \/ (_url_allowed urlparse_netloc re_fullmatch crawler url = Ok true
      /\ exists msg, session_get [] url = Raise (RequestException msg)) ->
  generate_project (ProjectGenerator_init ScaffoldManager default_manager None manager)
    url output_dir max_pages (S (S k))
  = Some (render_project
            (match manager with Some m => m | None => default_manager end)
            (mkBlueprint DEFAULT_BLUEPRINT_NAME
               "Heuristically generated MCP server blueprint" [health_check] [])
            output_dir).
Proof.
  intros Hn crawler Hedge.
  unfold generate, DocumentationCrawler_init. rewrite Hn. cbn [rbind].
  fold crawler.
  rewrite (crawl_finds_nothing urlparse_netloc re_fullmatch session_get
             soup_title_string soup_text soup_hrefs unescape urljoin crawler k Hedge).
  cbn [documents ProjectGenerator_init orchestrator scaffold_manager].
  change (_document_texts (mkCorpus [])) with (@nil string).
  rewrite (health_check_only py_repr json_loads responses_create
             (LLMOrchestrator_init None) [] None).
  - reflexivity.
  - right. reflexivity.
  - intros doc Hd. inversion Hd.
  - intros t Ht. discriminate Ht.
Qed.

End GeneratorProperties.

Lemma append_assoc (a b c : string) : (a +:+ b) +:+ c = a +:+ (b +:+ c).
Proof.
  induction a as [|x a IH]; [reflexivity|].
  change (String x ((a +:+ b) +:+ c) = String x (a +:+ (b +:+ c))).
  rewrite IH. reflexivity.
Qed.

Lemma join_app (sep : string) (l1 l2 : list string) :
  l1 <> [] -> l2 <> [] ->
  join sep (l1 ++ l2) = join sep l1 +:+ sep +:+ join sep l2.
Proof.
  intros H1 H2. induction l1 as [|p l1 IH]; [congruence|].
  destruct l1 as [|p' l1].
  - destruct l2 as [|p2 l2]; [congruence|]. reflexivity.
  - change (join sep ((p :: p' :: l1) ++ l2))
      with (p +:+ sep +:+ join sep ((p' :: l1) ++ l2)).
    rewrite IH by discriminate.
    change (join sep (p :: p' :: l1)) with (p +:+ sep +:+ join sep (p' :: l1)).
    rewrite !append_assoc. reflexivity.
Qed.

(** X19. The text of a corpus made of two non-empty runs of documents is
    the texts of the two runs joined by one separator. *)
Theorem concatenate_app (docs1 docs2 : list Document) (separator : string) :
  docs1 <> [] -> docs2 <> [] ->
  concatenate (mkCorpus (docs1 ++ docs2)) separator
  = concatenate (mkCorpus docs1) separator +:+ separator
    +:+ concatenate (mkCorpus docs2) separator.
Proof.
  intros H1 H2. unfold concatenate. cbn [documents].
  rewrite map_app. apply join_app; destruct docs1, docs2; simpl; congruence.
Qed.

(** ** Closed instances for the further properties *)


(** Instance of X4 on a text that names verbs but no path. *)
Lemma extract_endpoints_needs_slash_witness :
  ("/"%char ∉ s2l "GET users and POST items")
  /\ extract_endpoints "GET users and POST items" = [].
Proof.
  assert (Hno : "/"%char ∉ s2l "GET users and POST items").
  { intros H. apply list_elem_of_In in H. simpl in H.
    repeat (destruct H as [H|H]; [discriminate H|]). exact H. }
  split; [exact Hno|]. exact (extract_endpoints_needs_slash _ Hno).
Defined.

(** Instance of X5 with a remote client whose service is offline and a document without a slash. *)
Lemma build_blueprint_health_check_only_witness :
  build_blueprint repr_unused Json.json_decode offline_service
    remote_orchestrator ["An overview without endpoints."] (Some "Overview")
  = Ok (mkBlueprint DEFAULT_BLUEPRINT_NAME
          "Heuristically generated MCP server blueprint" [health_check] []).
Proof.
  apply (build_blueprint_health_check_only repr_unused Json.json_decode
           offline_service remote_orchestrator).
  - left. eexists. reflexivity.
  - intros doc Hd. apply list_elem_of_singleton in Hd. subst doc.
    intros H. apply list_elem_of_In in H. simpl in H.
    repeat (destruct H as [H|H]; [discriminate H|]). exact H.
  - intros t [= <-]. intros H. apply list_elem_of_In in H. simpl in H.
    repeat (destruct H as [H|H]; [discriminate H|]). exact H.
Defined.

(** Instance of X8 on the object with one endpoint. *)
Lemma blueprint_from_dict_objects_witness :
  blueprint_from_dict repr_unused one_endpoint_value = Ok one_endpoint_blueprint.
Proof.
  exact (blueprint_from_dict_objects repr_unused
           [("endpoints", JList [JDict [("method", JStr "get"); ("path", JStr "/x")]])]
           [[("method", JStr "get"); ("path", JStr "/x")]] []
           eq_refl eq_refl).
Defined.

(** Instance of X11 for a URL of the site that the deny pattern excludes. *)
Lemma url_allowed_iff_witness :
  exists b, _url_allowed Fixture.netloc Fixture.fullmatch (Fixture.crawler 20)
              "http://docs/private" = Ok b
    /\ (b = true <->
        "docs" = allowed_netloc (Fixture.crawler 20)
        /\ (allow_patterns (config (Fixture.crawler 20)) = []
            \/ exists p, p ∈ allow_patterns (config (Fixture.crawler 20))
                         /\ Fixture.fullmatch p "http://docs/private" = Ok true)
        /\ ~ exists p, p ∈ deny_patterns (config (Fixture.crawler 20))
                       /\ Fixture.fullmatch p "http://docs/private" = Ok true).
Proof.
  apply (url_allowed_iff Fixture.netloc Fixture.fullmatch (Fixture.crawler 20)
           "http://docs/private" "docs").
  - vm_compute. reflexivity.
  - intros p Hp. simpl in Hp.
    apply elem_of_cons in Hp. destruct Hp as [->|Hp]; [eexists; vm_compute; reflexivity|].
    apply list_elem_of_singleton in Hp. subst p. eexists. vm_compute. reflexivity.
Defined.

(** Instance of X12 on the index page of the site. *)
Lemma parse_html_spec_witness :
  let document := mkDocument "http://docs/" "index" "text/html"
                    {[ "source" := "http://docs/" ]} (Some "Docs") in
  let links : gset string := {["http://docs/gone"]} ∪ ({["http://docs/api"]} ∪ ∅) in
  _parse_html Fixture.netloc Fixture.fullmatch Fixture.title_string
    (fun html => html) Fixture.hrefs (fun s => s) Fixture.join_url
    (Fixture.crawler 20) "http://docs/" "index" = Ok (document, links)
  /\ forall l, l ∈ links <->
       exists href, href ∈ Fixture.hrefs "index"
                    /\ Fixture.join_url "http://docs/" href = Ok l
                    /\ String.prefix "http" l = true
                    /\ _url_allowed Fixture.netloc Fixture.fullmatch
                         (Fixture.crawler 20) l = Ok true.
Proof.
  intros document links.
  assert (H : _parse_html Fixture.netloc Fixture.fullmatch Fixture.title_string
                (fun html => html) Fixture.hrefs (fun s => s) Fixture.join_url
                (Fixture.crawler 20) "http://docs/" "index" = Ok (document, links))
    by (vm_compute; reflexivity).
  split; [exact H|].
  exact (proj2 (proj2 (proj2 (proj2
           (parse_html_spec Fixture.netloc Fixture.fullmatch Fixture.title_string
              (fun html => html) Fixture.hrefs (fun s => s) Fixture.join_url
              (Fixture.crawler 20) "http://docs/" "index" document links H))))).
Defined.

(** Instance of X14 after the first iteration of the crawl of the site. *)
Lemma queued_urls_in_scope_witness :
  "http://docs/api" ∈ q (Fixture.run 20 1)
  /\ ("http://docs/api" = start_url (Fixture.crawler 20)
      \/ (_url_allowed Fixture.netloc Fixture.fullmatch (Fixture.crawler 20)
            "http://docs/api" = Ok true
          /\ String.prefix "http" "http://docs/api" = true)).
Proof.
  assert (Hin : "http://docs/api" ∈ q (Fixture.run 20 1)).
  { vm_compute. apply list_elem_of_In. simpl. tauto. }
  split; [exact Hin|].
  exact (queued_urls_in_scope Fixture.netloc Fixture.fullmatch Fixture.session
           Fixture.title_string (fun html => html) Fixture.hrefs (fun s => s)
           Fixture.join_url (Fixture.crawler 20) 1 "http://docs/api" Hin).
Defined.

(** Instance of X15 on the crawl of the site. *)
Lemma corpus_documents_witness :
  crawl Fixture.netloc Fixture.fullmatch Fixture.session Fixture.title_string
    (fun html => html) Fixture.hrefs (fun s => s) Fixture.join_url
    (Fixture.crawler 20) 10 = Some (Ok site_corpus)
  /\ NoDup (map url (documents site_corpus))
  /\ (forall d ds, documents site_corpus = d :: ds ->
                   url d = start_url (Fixture.crawler 20)).
Proof.
  assert (H : crawl Fixture.netloc Fixture.fullmatch Fixture.session
                Fixture.title_string (fun html => html) Fixture.hrefs (fun s => s)
                Fixture.join_url (Fixture.crawler 20) 10 = Some (Ok site_corpus))
    by (vm_compute; reflexivity).
  split; [exact H|].
  pose proof (corpus_documents Fixture.netloc Fixture.fullmatch Fixture.session
                Fixture.title_string (fun html => html) Fixture.hrefs (fun s => s)
                Fixture.join_url (Fixture.crawler 20) 10 site_corpus H) as Hc.
  split; [exact (proj1 (proj2 Hc)) | exact (proj2 (proj2 (proj2 Hc)))].
Defined.

(** Instance of X16 with a budget of zero pages. *)
Lemma crawl_empty_corpus_witness :
  crawl Fixture.netloc Fixture.fullmatch Fixture.session Fixture.title_string
    (fun html => html) Fixture.hrefs (fun s => s) Fixture.join_url
    (Fixture.crawler 0) 2 = Some (Ok (mkCorpus [])).
Proof.
  apply (crawl_empty_corpus Fixture.netloc Fixture.fullmatch Fixture.session
           Fixture.title_string (fun html => html) Fixture.hrefs (fun s => s)
           Fixture.join_url (Fixture.crawler 0) 0).
  left. simpl. lia.
Defined.

(** Instance of X17 on the site, with a renderer that writes nothing. *)
Lemma generate_renders_endpoints_witness :
  generate repr_unused Json.json_decode offline_service Fixture.netloc
    Fixture.fullmatch Fixture.session Fixture.title_string (fun html => html)
    Fixture.hrefs (fun s => s) Fixture.join_url unit render_nothing
    (ProjectGenerator_init unit tt None None) "http://docs/" "out" 20 10
  = Some (Ok "out")
  /\ ((exists e, Ok "out" = Raise e
         /\ (DocumentationCrawler_init Fixture.netloc "http://docs/"
               (Some (mkCrawlConfig 20 10 "mcp-builder/0.1" [".*"] [])) = Raise e
             \/ exists crawler,
                  DocumentationCrawler_init Fixture.netloc "http://docs/"
                    (Some (mkCrawlConfig 20 10 "mcp-builder/0.1" [".*"] []))
                  = Ok crawler
                  /\ crawl Fixture.netloc Fixture.fullmatch Fixture.session
                       Fixture.title_string (fun html => html) Fixture.hrefs
                       (fun s => s) Fixture.join_url crawler 10 = Some (Raise e)))
      \/ exists blueprint,
           endpoints blueprint <> []
           /\ Ok "out" = render_nothing tt blueprint "out").
Proof.
  assert (H : generate repr_unused Json.json_decode offline_service Fixture.netloc
                Fixture.fullmatch Fixture.session Fixture.title_string
                (fun html => html) Fixture.hrefs (fun s => s) Fixture.join_url
                unit render_nothing (ProjectGenerator_init unit tt None None)
                "http://docs/" "out" 20 10 = Some (Ok "out"))
    by (vm_compute; reflexivity).
  split; [exact H|].
  exact (generate_renders_endpoints repr_unused Json.json_decode offline_service
           Fixture.netloc Fixture.fullmatch Fixture.session Fixture.title_string
           (fun html => html) Fixture.hrefs (fun s => s) Fixture.join_url
           unit render_nothing (ProjectGenerator_init unit tt None None)
           "http://docs/" "out" 20 10 (Ok "out") H).
Defined.

(** Instance of X18 with a budget of zero pages. *)
Lemma generate_without_documents_witness :
  generate repr_unused Json.json_decode offline_service Fixture.netloc
    Fixture.fullmatch Fixture.session Fixture.title_string (fun html => html)
    Fixture.hrefs (fun s => s) Fixture.join_url unit render_nothing
    (ProjectGenerator_init unit tt None None) "http://docs/" "out" 0 2
  = Some (render_nothing tt
            (mkBlueprint DEFAULT_BLUEPRINT_NAME
               "Heuristically generated MCP server blueprint" [health_check] [])
            "out").
Proof.
  apply (generate_without_documents repr_unused Json.json_decode offline_service
           Fixture.netloc Fixture.fullmatch Fixture.session Fixture.title_string
           (fun html => html) Fixture.hrefs (fun s => s) Fixture.join_url
           unit tt render_nothing None "http://docs/" "out" "docs" 0 0).
  - vm_compute. reflexivity.
  - left. lia.
Defined.

(** Instance of X6 with a service that answers the object with one endpoint. *)
Lemma remote_blueprint_returned_witness :
  build_blueprint repr_unused Json.json_decode canned_service
    {| llm_client := OpenAILLMClient "sk-test" "gpt-4o-mini" |} ["GET /ignored"] None
  = blueprint_from_dict repr_unused one_endpoint_value.
Proof.
  refine (proj1 (remote_blueprint_returned repr_unused Json.json_decode
                   canned_service "sk-test" "gpt-4o-mini" ["GET /ignored"] None
                   one_endpoint_body
                   [("endpoints", JList [JDict [("method", JStr "get"); ("path", JStr "/x")]])]
                   [("method", JStr "get"); ("path", JStr "/x")] [] []
                   _ _ _ _)).
  - reflexivity.
  - vm_compute. reflexivity.
  - reflexivity.
  - reflexivity.
Defined.

(** Instance of X7 with an offline service. *)
Lemma remote_failures_fall_back_witness :
  build_blueprint repr_unused Json.json_decode offline_service
    {| llm_client := OpenAILLMClient "sk-test" "gpt-4o-mini" |} ["GET /items"] None
  = Ok (repaired (heuristic_blueprint (_build_prompt ["GET /items"] None))).
Proof.
  apply (remote_failures_fall_back repr_unused Json.json_decode offline_service
           "sk-test" "gpt-4o-mini" ["GET /items"] None).
  left. eexists. reflexivity.
Defined.

(** Instance of X10 on the blueprint with one endpoint. *)
Lemma blueprint_context_round_trip_witness :
  (inner <- py_getitem (_context_from_blueprint one_endpoint_blueprint) "blueprint" ;;
   blueprint_from_dict repr_unused inner)
  = Ok one_endpoint_blueprint.
Proof.
  apply (proj2 (blueprint_context_round_trip repr_unused one_endpoint_blueprint));
    reflexivity.
Defined.

(** Instance of X19 on the two documents of the site. *)
Lemma concatenate_app_witness :
  concatenate site_corpus "--" = "index--{}".
Proof.
  exact (concatenate_app
           [mkDocument "http://docs/" "index" "text/html"
              {[ "source" := "http://docs/" ]} (Some "Docs")]
           [mkDocument "http://docs/api" "{}" "application/json" ∅ None]
           "--" ltac:(discriminate) ltac:(discriminate)).
Defined.
